(** * RRL.py: random-TLD link generation

    A shallow embedding of [RRL.py] (functions [generate_random_tld],
    [generate_links], [randomize_and_generate_links], [main]) together with
    the parts of the Python 3.11 standard library it calls:
    [urllib.parse.urlparse] / [urlunparse], [str.format] with one positional
    integer argument, [random.choice] / [choices] / [shuffle] and the
    [logging] calls.

    Conventions of the model.
    - A Python [str] is a [string]; a character is a code point below 256.
    - A Python [int] is a [Z].
    - The process-wide random generator and the log stream are threaded
      explicitly as a [world].
    - A call either returns, raises a Python exception, or leaves the
      modelled fragment of the library ([Beyond]).  *)

From Stdlib Require Import ZArith List String Ascii Bool Arith Lia.
From Stdlib Require Import Permutation DecimalString.
From Stdlib Require DecimalZ.
Import ListNotations.

Local Open Scope list_scope.
Local Open Scope string_scope.

(* ================================================================== *)
(** ** Python strings *)

Module PyStr.

(** [c in s] *)
Fixpoint contains (c : ascii) (s : string) : bool :=
  match s with
  | EmptyString => false
  | String a s' => Ascii.eqb a c || contains c s'
  end.

(** [s.partition(c)]: text before the first [c], whether [c] was found,
    text after it.  Python returns [(s, '', '')] when [c] is absent. *)
Fixpoint partition (c : ascii) (s : string) : string * bool * string :=
  match s with
  | EmptyString => (EmptyString, false, EmptyString)
  | String a s' =>
      if Ascii.eqb a c then (EmptyString, true, s')
      else let '(h, found, t) := partition c s' in (String a h, found, t)
  end.

(** [s.rpartition(c)]: split at the last [c]; Python returns
    [('', '', s)] when [c] is absent. *)
Fixpoint rsplit_last (c : ascii) (s : string) : option (string * string) :=
  match s with
  | EmptyString => None
  | String a s' =>
      match rsplit_last c s' with
      | Some (h, t) => Some (String a h, t)
      | None => if Ascii.eqb a c then Some (EmptyString, s') else None
      end
  end.

Definition rpartition (c : ascii) (s : string) : string * bool * string :=
  match rsplit_last c s with
  | Some (h, t) => (h, true, t)
  | None => (EmptyString, false, s)
  end.

(** [s.split(c)[0]] *)
Definition split_head (c : ascii) (s : string) : string :=
  fst (fst (partition c s)).

(** [s.rsplit(c)[-1]]: the text after the last [c], all of [s] without. *)
Definition split_last (c : ascii) (s : string) : string :=
  snd (rpartition c s).

Definition code (c : ascii) : nat := nat_of_ascii c.

Definition between (lo hi : nat) (c : ascii) : bool :=
  Nat.leb lo (code c) && Nat.leb (code c) hi.

Definition is_ascii_lower (c : ascii) : bool := between 97 122 c.
Definition is_ascii_upper (c : ascii) : bool := between 65 90 c.
Definition is_ascii_alpha (c : ascii) : bool :=
  is_ascii_lower c || is_ascii_upper c.
Definition is_ascii_digit (c : ascii) : bool := between 48 57 c.

(** [c.lower()] on code points below 256: the ASCII capitals and the
    Latin-1 capitals U+00C0..U+00DE except the multiplication sign. *)
Definition lower_char (c : ascii) : ascii :=
  if is_ascii_upper c then ascii_of_nat (code c + 32)
  else if between 192 222 c && negb (Nat.eqb (code c) 215)
       then ascii_of_nat (code c + 32)
       else c.

Fixpoint map_chars (f : ascii -> ascii) (s : string) : string :=
  match s with
  | EmptyString => EmptyString
  | String a s' => String (f a) (map_chars f s')
  end.

Definition lower (s : string) : string := map_chars lower_char s.

Fixpoint all_chars (p : ascii -> bool) (s : string) : bool :=
  match s with
  | EmptyString => true
  | String a s' => p a && all_chars p s'
  end.

Fixpoint filter_chars (p : ascii -> bool) (s : string) : string :=
  match s with
  | EmptyString => EmptyString
  | String a s' => if p a then String a (filter_chars p s')
                   else filter_chars p s'
  end.

(** [s.lstrip(chars)] for a set of characters given as a predicate. *)
Fixpoint lstrip (p : ascii -> bool) (s : string) : string :=
  match s with
  | EmptyString => EmptyString
  | String a s' => if p a then lstrip p s' else s
  end.

(** The text before the first character satisfying [p], and the rest
    (which starts with that character, or is empty). *)
Fixpoint span_until (p : ascii -> bool) (s : string) : string * string :=
  match s with
  | EmptyString => (EmptyString, EmptyString)
  | String a s' =>
      if p a then (EmptyString, s)
      else let '(h, t) := span_until p s' in (String a h, t)
  end.

(** [s[:-1]] *)
Fixpoint drop_last (s : string) : string :=
  match s with
  | EmptyString => EmptyString
  | String c s' =>
      match s' with
      | EmptyString => EmptyString
      | String _ _ => String c (drop_last s')
      end
  end.

Definition is_empty (s : string) : bool :=
  match s with EmptyString => true | _ => false end.

Definition starts_with (c : ascii) (s : string) : bool :=
  match s with String a _ => Ascii.eqb a c | EmptyString => false end.

Fixpoint concat_all (l : list string) : string :=
  match l with
  | [] => EmptyString
  | s :: l' => s ++ concat_all l'
  end.

(** [x in l] for a list of strings *)
Definition mem (x : string) (l : list string) : bool :=
  existsb (String.eqb x) l.

(** [str(i)] for an [int]. *)
Definition str_of_int (i : Z) : string :=
  NilZero.string_of_int (Z.to_int i).

(** [repr(s)] for a [str] of code points below 256.  The text is put
    between apostrophes, or between double quotes when it holds an
    apostrophe and no double quote; the quote character in use and the
    backslash are escaped with a backslash, tab, line feed and carriage
    return are written [\t], [\n], [\r], and every other character that is
    not printable (the C0 and C1 controls, U+007F, the no-break space and
    the soft hyphen) is written [\xhh]. *)
Definition double_quote : ascii := "034".
Definition apostrophe : ascii := "039".

Definition hex_digit (n : nat) : ascii :=
  match String.get n "0123456789abcdef" with
  | Some c => c
  | None => "0"
  end.

Definition is_printable (c : ascii) : bool :=
  between 32 126 c
  || (between 161 255 c && negb (Nat.eqb (code c) 173)).

Definition repr_char (quote c : ascii) : string :=
  if Ascii.eqb c quote || Ascii.eqb c "\" then String "\" (String c "")
  else if Nat.eqb (code c) 9 then "\t"
  else if Nat.eqb (code c) 10 then "\n"
  else if Nat.eqb (code c) 13 then "\r"
  else if is_printable c then String c ""
  else String "\" (String "x"
         (String (hex_digit (code c / 16))
            (String (hex_digit (code c mod 16)) ""))).

Fixpoint repr_body (quote : ascii) (s : string) : string :=
  match s with
  | EmptyString => EmptyString
  | String c s' => repr_char quote c ++ repr_body quote s'
  end.

Definition repr (s : string) : string :=
  let quote :=
    if contains apostrophe s && negb (contains double_quote s)
    then double_quote else apostrophe in
  String quote (repr_body quote s ++ String quote "").

End PyStr.
Import PyStr.

(* ================================================================== *)
(** ** Outcomes of a call, and the state a call runs in *)

Inductive exn : Type :=
| ValueError (msg : string)
| AttributeError (msg : string)
| IndexError (msg : string)
| KeyError (key : string).

(** [Beyond]: the call reaches library behaviour this development does not
    model (format conversions, format specifications, attribute or item
    access inside a replacement field). *)
Inductive outcome (A : Type) : Type :=
| Returns (a : A)
| Raises (e : exn)
| Beyond.
Arguments Returns {A} a.
Arguments Raises {A} e.
Arguments Beyond {A}.

(** The random generator: an unbounded tape of raw draws and a cursor.
    [randbelow n] is [Random._randbelow(n)], a value in [0, n). *)
Record rng : Type := { tape : nat -> nat; pos : nat }.

Definition randbelow (n : nat) (g : rng) : nat * rng :=
  (Nat.modulo (tape g (pos g)) n, {| tape := tape g; pos := S (pos g) |}).

Inductive level : Type := DEBUG | INFO | ERROR.

Record world : Type := { gen : rng; log : list (level * string) }.

Definition M (A : Type) : Type := world -> outcome A * world.

Definition ret {A} (a : A) : M A := fun w => (Returns a, w).
Definition raise {A} (e : exn) : M A := fun w => (Raises e, w).
Definition beyond {A} : M A := fun w => (Beyond, w).

Definition bind {A B} (m : M A) (k : A -> M B) : M B :=
  fun w =>
    match m w with
    | (Returns a, w') => k a w'
    | (Raises e, w') => (Raises e, w')
    | (Beyond, w') => (Beyond, w')
    end.

Notation "x <- m ;; k" := (bind m (fun x => k))
  (at level 61, m at next level, right associativity).
Notation "m ;;; k" := (bind m (fun _ => k))
  (at level 61, right associativity).

(** [try: m except ValueError: h] *)
Definition catch_ValueError {A} (m : M A) (h : string -> M A) : M A :=
  fun w =>
    match m w with
    | (Raises (ValueError msg), w') => h msg w'
    | r => r
    end.

Definition lift {A} (o : outcome A) : M A := fun w => (o, w).

(** [logging.basicConfig(level=logging.INFO, ...)]: records below INFO are
    dropped, the others are appended to the stream. *)
Definition level_enabled (l : level) : bool :=
  match l with DEBUG => false | INFO | ERROR => true end.

Definition logging_log (l : level) (msg : string) : M unit :=
  fun w =>
    (Returns tt,
     if level_enabled l
     then {| gen := gen w; log := (log w ++ [(l, msg)])%list |}
     else w).

Definition logging_debug := logging_log DEBUG.
Definition logging_info := logging_log INFO.
Definition logging_error := logging_log ERROR.

(* ================================================================== *)
(** ** The [random] module *)

Module Random.

Definition draw (n : nat) : M nat :=
  fun w =>
    let '(j, g) := randbelow n (gen w) in
    (Returns j, {| gen := g; log := log w |}).

(** [random.choice(seq)] *)
Definition choice {A} (seq : list A) : M A :=
  match seq with
  | [] => raise (IndexError "Cannot choose from an empty sequence")
  | d :: _ => j <- draw (List.length seq) ;; ret (nth j seq d)
  end.

(** [random.choices(population, k=k)] on a string population: [k] times
    [population[floor(random() * n)]]. *)
Fixpoint choices (population : string) (k : nat) : M (list string) :=
  match k with
  | O => ret []
  | S k' =>
      j <- draw (String.length population) ;;
      match String.get j population with
      | Some c => rest <- choices population k' ;;
                  ret (String c EmptyString :: rest)
      | None => raise (IndexError "string index out of range")
      end
  end.

Fixpoint list_set {A} (i : nat) (v : A) (x : list A) : list A :=
  match x, i with
  | [], _ => []
  | _ :: t, O => v :: t
  | h :: t, S i' => h :: list_set i' v t
  end.

(** [x[i], x[j] = x[j], x[i]]; both indices are inside the list wherever
    [shuffle] uses it. *)
Definition swap {A} (i j : nat) (x : list A) : list A :=
  match nth_error x i, nth_error x j with
  | Some a, Some b => list_set j a (list_set i b x)
  | _, _ => x
  end.

(** The loop of [shuffle] from index [i] down to 1. *)
Fixpoint shuffle_from {A} (i : nat) (x : list A) (g : rng) : list A * rng :=
  match i with
  | O => (x, g)
  | S i' =>
      let '(j, g') := randbelow (i + 1) g in
      shuffle_from i' (swap i j x) g'
  end.

(** [random.shuffle(x)]: the list after the in-place shuffle. *)
Definition shuffle {A} (x : list A) : M (list A) :=
  fun w =>
    let '(x', g) := shuffle_from (List.length x - 1) x (gen w) in
    (Returns x', {| gen := g; log := log w |}).

End Random.

(* ================================================================== *)
(** ** [str.format] with one positional [int] argument *)

Module Format.

Inductive an_state : Type := ANS_INIT | ANS_AUTO | ANS_MANUAL.

(** [AutoNumber]: numbering mode and the next automatic index. *)
Record AutoNumber : Type :=
  { an_mode : an_state; an_field_number : Z }.

Definition an_init : AutoNumber :=
  {| an_mode := ANS_INIT; an_field_number := 0 |}.

Definition PY_SSIZE_T_MAX : Z := 2 ^ 63 - 1.

Definition digit_value (c : ascii) : Z := Z.of_nat (code c) - 48.

(** [get_integer]: [Returns None] stands for the C function's -1 without
    an error set (the text is empty or not all decimal digits). *)
Fixpoint get_integer_from (acc : Z) (s : string) : outcome (option Z) :=
  match s with
  | EmptyString => Returns (Some acc)
  | String c s' =>
      if is_ascii_digit c then
        if (Z.div (PY_SSIZE_T_MAX - digit_value c) 10 <? acc)%Z
        then Raises (ValueError "Too many decimal digits in format string")
        else get_integer_from (acc * 10 + digit_value c)%Z s'
      else Returns None
  end.

Definition get_integer (s : string) : outcome (option Z) :=
  match s with
  | EmptyString => Returns None
  | _ => get_integer_from 0%Z s
  end.

Definition is_dot_or_bracket (c : ascii) : bool :=
  Ascii.eqb c "." || Ascii.eqb c "[".

(** [field_name_split] followed by [get_field_object] and [render_field]
    for the argument tuple [(arg,)], no keyword arguments, no conversion
    and an empty format specification. *)
Definition render_field (name : string) (an : AutoNumber) (arg : Z)
  : outcome (string * AutoNumber) :=
  let '(first, rest) := span_until is_dot_or_bracket name in
  match get_integer first with
  | Raises e => Raises e
  | Beyond => Beyond
  | Returns first_idx =>
      let field_name_is_empty := is_empty first in
      let using_numeric_index :=
        field_name_is_empty
        || match first_idx with Some _ => true | None => false end in
      let mode :=
        match an_mode an with
        | ANS_INIT =>
            if using_numeric_index
            then (if field_name_is_empty then ANS_AUTO else ANS_MANUAL)
            else ANS_INIT
        | m => m
        end in
      match mode, using_numeric_index, field_name_is_empty with
      | ANS_MANUAL, true, true =>
          Raises (ValueError
            "cannot switch from manual field specification to automatic field numbering")
      | ANS_AUTO, true, false =>
          Raises (ValueError
            "cannot switch from automatic field numbering to manual field specification")
      | _, _, _ =>
          let index :=
            if field_name_is_empty then Some (an_field_number an)
            else first_idx in
          let an' :=
            {| an_mode := mode;
               an_field_number :=
                 if field_name_is_empty then (an_field_number an + 1)%Z
                 else an_field_number an |} in
          match index with
          | None => Raises (KeyError first)
          | Some idx =>
              if (idx =? 0)%Z then
                if is_empty rest then Returns (str_of_int arg, an')
                else Beyond
              else Raises (IndexError
                ("Replacement index " ++ str_of_int idx
                 ++ " out of range for positional args tuple"))
          end
      end
  end.

(** Where the scanner of [MarkupIterator_next] / [parse_field] stands:
    in literal text, inside a field name, or inside a [[...]] of a
    field name. *)
Inductive mode : Type :=
| Text
| Name (acc : string)
| Index (acc : string).

Definition snoc (s : string) (c : ascii) : string :=
  s ++ String c EmptyString.

Definition prepend (c : ascii) (o : outcome string) : outcome string :=
  match o with
  | Returns s => Returns (String c s)
  | Raises e => Raises e
  | Beyond => Beyond
  end.

(** [do_markup]: literal text is copied, a doubled brace gives one
    brace, each replacement field is rendered as soon as it is closed. *)
Fixpoint do_markup (m : mode) (an : AutoNumber) (arg : Z) (s : string)
  : outcome string :=
  match m with
  | Text =>
      match s with
      | EmptyString => Returns EmptyString
      | String c rest =>
          if Ascii.eqb c "{" then
            match rest with
            | EmptyString =>
                Raises (ValueError "Single '{' encountered in format string")
            | String c' rest' =>
                if Ascii.eqb c' "{"
                then prepend "{" (do_markup Text an arg rest')
                else do_markup (Name EmptyString) an arg rest
            end
          else if Ascii.eqb c "}" then
            match rest with
            | String c' rest' =>
                if Ascii.eqb c' "}"
                then prepend "}" (do_markup Text an arg rest')
                else Raises
                       (ValueError "Single '}' encountered in format string")
            | EmptyString =>
                Raises (ValueError "Single '}' encountered in format string")
            end
          else prepend c (do_markup Text an arg rest)
      end
  | Name acc =>
      match s with
      | EmptyString =>
          Raises (ValueError "expected '}' before end of string")
      | String c rest =>
          if Ascii.eqb c "{" then
            Raises (ValueError "unexpected '{' in field name")
          else if Ascii.eqb c "[" then
            do_markup (Index (snoc acc c)) an arg rest
          else if Ascii.eqb c "}" then
            match render_field acc an arg with
            | Returns (text, an') =>
                match do_markup Text an' arg rest with
                | Returns out => Returns (text ++ out)
                | r => r
                end
            | Raises e => Raises e
            | Beyond => Beyond
            end
          else if Ascii.eqb c ":" || Ascii.eqb c "!" then Beyond
          else do_markup (Name (snoc acc c)) an arg rest
      end
  | Index acc =>
      match s with
      | EmptyString =>
          Raises (ValueError "expected '}' before end of string")
      | String c rest =>
          if Ascii.eqb c "]" then do_markup (Name (snoc acc c)) an arg rest
          else do_markup (Index (snoc acc c)) an arg rest
      end
  end.

(** [pattern.format(arg)] *)
Definition format (pattern : string) (arg : Z) : outcome string :=
  do_markup Text an_init arg pattern.

End Format.

(* ================================================================== *)
(** ** [urllib.parse] *)

Module UrlParse.

(** [ParseResult(scheme, netloc, path, params, query, fragment)] *)
Record ParseResult : Type :=
  { scheme : string;
    netloc : string;
    path : string;
    params : string;
    query : string;
    fragment : string }.

Definition uses_netloc : list string :=
  [""; "ftp"; "http"; "gopher"; "nntp"; "telnet";
   "imap"; "wais"; "file"; "mms"; "https"; "shttp";
   "snews"; "prospero"; "rtsp"; "rtspu"; "rsync";
   "svn"; "svn+ssh"; "sftp"; "nfs"; "git"; "git+ssh";
   "ws"; "wss"].

Definition uses_params : list string :=
  [""; "ftp"; "hdl"; "prospero"; "http"; "imap";
   "https"; "shttp"; "rtsp"; "rtspu"; "sip"; "sips";
   "mms"; "sftp"; "tel"].

(** membership in [scheme_chars] *)
Definition is_scheme_char (c : ascii) : bool :=
  is_ascii_alpha c || is_ascii_digit c
  || Ascii.eqb c "+" || Ascii.eqb c "-" || Ascii.eqb c ".".

(** membership in [_WHATWG_C0_CONTROL_OR_SPACE] *)
Definition is_c0_control_or_space (c : ascii) : bool := Nat.leb (code c) 32.

(** membership in [_UNSAFE_URL_BYTES_TO_REMOVE] *)
Definition is_unsafe_byte (c : ascii) : bool :=
  Ascii.eqb c "009" || Ascii.eqb c "013" || Ascii.eqb c "010".

Definition is_netloc_delim (c : ascii) : bool :=
  Ascii.eqb c "/" || Ascii.eqb c "?" || Ascii.eqb c "#".

(** The scheme test of [urlsplit]: [i = url.find(':')], [i > 0], first
    character an ASCII letter, every character of [url[:i]] in
    [scheme_chars]. *)
Definition split_scheme (url : string) : string * string :=
  let '(pre, found, post) := partition ":" url in
  if found
     && match pre with
        | String c _ => is_ascii_alpha c
        | EmptyString => false
        end
     && all_chars is_scheme_char pre
  then (lower pre, post)
  else (EmptyString, url).

(** [url[:2] == '//']: the text after the two slashes, if [url] starts
    with them. *)
Definition after_double_slash (url : string) : option string :=
  match url with
  | String a (String b rest) =>
      if Ascii.eqb a "/" && Ascii.eqb b "/" then Some rest else None
  | _ => None
  end.

(** [_splitnetloc(url, 2)] for a [url] that starts with two slashes. *)
Definition _splitnetloc (after_slashes : string) : string * string :=
  span_until is_netloc_delim after_slashes.

(** [_hostinfo]: host text and port text ([None] when empty). *)
Definition _hostinfo (netloc : string) : string * option string :=
  let '(_, _, hostinfo) := rpartition "@" netloc in
  let '(_, have_open_br, bracketed) := partition "[" hostinfo in
  let '(hostname, port) :=
    if have_open_br then
      let '(hostname, _, port) := partition "]" bracketed in
      let '(_, _, port) := partition ":" port in
      (hostname, port)
    else
      let '(hostname, _, port) := partition ":" hostinfo in
      (hostname, port) in
  (hostname, if is_empty port then None else Some port).

(** [hostname.partition('%')] and [hostname.lower() + percent + zone]:
    the zone of a scoped address is not lowercased. *)
Definition lower_host (hostname : string) : string :=
  let '(hostname, percent, zone) := partition "%" hostname in
  lower hostname ++ (if percent then "%" else "") ++ zone.

(** The [hostname] property. *)
Definition hostname_of_netloc (netloc : string) : option string :=
  let hostname := fst (_hostinfo netloc) in
  if is_empty hostname then None else Some (lower_host hostname).

Definition hostname (r : ParseResult) : option string :=
  hostname_of_netloc (netloc r).

(** Decimal value of a string of ASCII digits. *)
Fixpoint int_of_digits (acc : Z) (s : string) : Z :=
  match s with
  | EmptyString => acc
  | String c s' => int_of_digits (acc * 10 + (Z.of_nat (code c) - 48))%Z s'
  end.

(** The [port] property: [None], a number in 0..65535, or ValueError. *)
Definition port_of_netloc (netloc : string) : outcome (option Z) :=
  match snd (_hostinfo netloc) with
  | None => Returns None
  | Some port =>
      if all_chars is_ascii_digit port then
        let n := int_of_digits 0 port in
        if (n <=? 65535)%Z then Returns (Some n)
        else Raises (ValueError "Port out of range 0-65535")
      else Raises (ValueError
             ("Port could not be cast to integer value as " ++ repr port))
  end.

Definition port (r : ParseResult) : outcome (option Z) :=
  port_of_netloc (netloc r).

(** The tail of [urlsplit]: the fragment is cut at the first [#], then
    the query at the first [?]: (path, query, fragment). *)
Definition split_fragment_query (url : string) : string * string * string :=
  let '(url, fragment) :=
    if contains "#" url
    then let '(u, _, f) := partition "#" url in (u, f)
    else (url, EmptyString) in
  let '(url, query) :=
    if contains "?" url
    then let '(u, _, q) := partition "?" url in (u, q)
    else (url, EmptyString) in
  (url, query, fragment).

Section WithBracketedHostCheck.

(** [_check_bracketed_host] (IPvFuture pattern and
    [ipaddress.ip_address]) is taken as given: [None] when the host is
    accepted, the message of the ValueError otherwise. *)
Variable _check_bracketed_host : string -> option string.

Definition _check_bracketed_netloc (netloc : string) : option string :=
  let '(_, _, hostname_and_port) := rpartition "@" netloc in
  let '(before_bracket, have_open_br, bracketed) :=
    partition "[" hostname_and_port in
  if have_open_br then
    if negb (is_empty before_bracket) then Some "Invalid IPv6 URL"
    else
      let '(hostname, _, port) := partition "]" bracketed in
      if negb (is_empty port) && negb (starts_with ":" port)
      then Some "Invalid IPv6 URL"
      else _check_bracketed_host hostname
  else
    let '(hostname, _, port) := partition ":" hostname_and_port in
    _check_bracketed_host hostname.

(** [urlsplit(url)] with the default [scheme=''] and
    [allow_fragments=True]: (scheme, netloc, path, query, fragment).
    [_checknetloc] only rejects a netloc whose NFKC normal form gains
    one of [/?#@:]; no code point below 256 normalises to one of
    these, so it never raises here. *)
Definition urlsplit (url : string)
  : outcome (string * string * string * string * string) :=
  let url := lstrip is_c0_control_or_space url in
  let url := filter_chars (fun c => negb (is_unsafe_byte c)) url in
  let '(scheme, url) := split_scheme url in
  let split_rest (netloc url : string) :=
    let '(url, query, fragment) := split_fragment_query url in
    Returns (scheme, netloc, url, query, fragment) in
  match after_double_slash url with
  | Some after_slashes =>
      let '(netloc, url) := _splitnetloc after_slashes in
      let open_br := contains "[" netloc in
      let close_br := contains "]" netloc in
      if (open_br && negb close_br) || (close_br && negb open_br)
      then Raises (ValueError "Invalid IPv6 URL")
      else if open_br && close_br then
        match _check_bracketed_netloc netloc with
        | Some msg => Raises (ValueError msg)
        | None => split_rest netloc url
        end
      else split_rest netloc url
  | None => split_rest EmptyString url
  end.

(** [_splitparams]: with a slash in [url], [i] is the first [;] at or
    after the last slash and [(url, '')] is returned when there is none;
    without a slash, [i = url.find(';')], which is -1 when there is no
    [;], and [(url[:i], url[i+1:])] is returned. *)
Definition _splitparams (url : string) : string * string :=
  if contains "/" url then
    match rsplit_last "/" url with
    | Some (dir, last) =>
        let '(seg, found, prm) := partition ";" last in
        if found then (dir ++ "/" ++ seg, prm) else (url, EmptyString)
    | None => (url, EmptyString)
    end
  else
    let '(seg, found, prm) := partition ";" url in
    if found then (seg, prm) else (drop_last url, url).

(** [urlparse(url)] *)
Definition urlparse (url : string) : outcome ParseResult :=
  match urlsplit url with
  | Returns (scheme, netloc, url, query, fragment) =>
      let '(url, params) :=
        if mem scheme uses_params && contains ";" url
        then _splitparams url
        else (url, EmptyString) in
      Returns {| scheme := scheme; netloc := netloc; path := url;
                 params := params; query := query;
                 fragment := fragment |}
  | Raises e => Raises e
  | Beyond => Beyond
  end.

End WithBracketedHostCheck.

(** [urlunsplit((scheme, netloc, url, query, fragment))] *)
Definition urlunsplit (scheme netloc url query fragment : string) : string :=
  let url :=
    if negb (is_empty netloc)
       || (negb (is_empty scheme) && mem scheme uses_netloc
           && negb (match after_double_slash url with
                    | Some _ => true
                    | None => false
                    end))
    then
      let url :=
        if negb (is_empty url) && negb (starts_with "/" url)
        then "/" ++ url else url in
      "//" ++ netloc ++ url
    else url in
  let url := if negb (is_empty scheme) then scheme ++ ":" ++ url else url in
  let url := if negb (is_empty query) then url ++ "?" ++ query else url in
  let url :=
    if negb (is_empty fragment) then url ++ "#" ++ fragment else url in
  url.

(** [urlunparse(components)] *)
Definition urlunparse (r : ParseResult) : string :=
  let url :=
    if negb (is_empty (params r)) then path r ++ ";" ++ params r
    else path r in
  urlunsplit (scheme r) (netloc r) url (query r) (fragment r).

(** [r._replace(netloc=new_netloc, path=new_path)] *)
Definition _replace (r : ParseResult) (new_netloc new_path : string)
  : ParseResult :=
  {| scheme := scheme r; netloc := new_netloc; path := new_path;
     params := params r; query := query r; fragment := fragment r |}.

End UrlParse.

(* ================================================================== *)
(** ** [RRL.py] *)

Module RRL.
Import UrlParse.

Definition default_common_tlds : list string :=
  ["com"; "net"; "org"; "info"; "biz"; "co"; "us"; "uk"].

(** [string.ascii_lowercase] *)
Definition ascii_lowercase : string := "abcdefghijklmnopqrstuvwxyz".

(** [generate_random_tld(common_tlds=None)] *)
Definition generate_random_tld (common_tlds : option (list string))
  : M string :=
  let common_tlds :=
    match common_tlds with
    | None => default_common_tlds
    | Some l => l
    end in
  coin <- Random.choice [true; false] ;;
  tld <- (if coin : bool then Random.choice common_tlds
          else k <- Random.choice [2; 3] ;;
               letters <- Random.choices ascii_lowercase k ;;
               ret (concat_all letters)) ;;
  logging_debug ("Generated TLD: " ++ tld) ;;;
  ret tld.

(** [range(lo, hi)] *)
Definition py_range (lo hi : Z) : list Z :=
  map (fun k => (lo + Z.of_nat k)%Z) (seq 0 (Z.to_nat (hi - lo))).

(** The body of the [for] loop of [generate_links], run over the
    remaining indices; [generated_links] is the list built so far. *)
Fixpoint links_loop (parsed_url : ParseResult)
    (base_hostname path_pattern : string)
    (indices : list Z) (generated_links : list string) : M (list string) :=
  match indices with
  | [] => ret generated_links
  | i :: indices' =>
      path <- lift (Format.format path_pattern i) ;;
      random_tld <- generate_random_tld None ;;
      let new_hostname := base_hostname ++ "." ++ random_tld in
      let new_url := _replace parsed_url new_hostname path in
      links_loop parsed_url base_hostname path_pattern indices'
        (generated_links ++ [urlunparse new_url])%list
  end.

Definition default_num_links : Z := 10.
Definition default_path_pattern : string := "/page{}".

Section WithBracketedHostCheck.

Variable _check_bracketed_host : string -> option string.

(** [generate_links(base_url, num_links, path_pattern)] *)
Definition generate_links (base_url : string) (num_links : Z)
    (path_pattern : string) : M (list string) :=
  parsed_url <-
    catch_ValueError
      (lift (urlparse _check_bracketed_host base_url))
      (fun _ =>
         logging_error ("Invalid base URL: " ++ base_url) ;;;
         raise (ValueError ("Invalid base URL: " ++ base_url))) ;;
  base_hostname <-
    match hostname parsed_url with
    | Some h => ret (split_head "." h)
    | None =>
        raise (AttributeError
                 "'NoneType' object has no attribute 'split'")
    end ;;
  generated_links <-
    links_loop parsed_url base_hostname path_pattern
      (py_range 1 (num_links + 1)) [] ;;
  logging_info
    ("Generated "
     ++ str_of_int (Z.of_nat (List.length generated_links))
     ++ " links based on " ++ base_url) ;;;
  ret generated_links.

(** [randomize_and_generate_links(base_url, num_links, path_pattern)] *)
Definition randomize_and_generate_links (base_url : string)
    (num_links : Z) (path_pattern : string) : M (list string) :=
  generated_links <- generate_links base_url num_links path_pattern ;;
  generated_links <- Random.shuffle generated_links ;;
  logging_info "Randomized the order of generated links." ;;;
  ret generated_links.

(** [main()] after argument parsing: the lines printed on standard
    output.  An exception leaves [main] before anything is printed. *)
Definition main (base_url : string) (num_links : option Z)
    (path_pattern : option string) : M (list string) :=
  let num_links :=
    match num_links with Some n => n | None => default_num_links end in
  let path_pattern :=
    match path_pattern with
    | Some p => p
    | None => default_path_pattern
    end in
  randomized_links <-
    randomize_and_generate_links base_url num_links path_pattern ;;
  ret ("Randomized and Generated Links:" :: randomized_links).

End WithBracketedHostCheck.

End RRL.

(* ================================================================== *)
(** ** Vocabulary of the statements *)

Module Spec.
Import UrlParse RRL.

(** A literal piece of a path pattern: no brace at all. *)
Definition brace_free (s : string) : bool :=
  negb (contains "{" s) && negb (contains "}" s).

(** What the TLD selector can hand out: a member of the default list,
    or two or three lowercase ASCII letters. *)
Definition is_tld_value (t : string) : bool :=
  mem t default_common_tlds
  || ((Nat.eqb (String.length t) 2 || Nat.eqb (String.length t) 3)
      && all_chars is_ascii_lower t).

(** The same, spelled out as a proposition. *)
Definition selector_value (t : string) : Prop :=
  In t ["com"; "net"; "org"; "info"; "biz"; "co"; "us"; "uk"]
  \/ ((String.length t = 2 \/ String.length t = 3)
      /\ all_chars is_ascii_lower t = true).

(** Scheme prefix, query suffix and fragment suffix as [urlunsplit]
    writes them. *)
Definition scheme_prefix (scheme : string) : string :=
  if is_empty scheme then "" else scheme ++ ":".
Definition query_suffix (query : string) : string :=
  if is_empty query then "" else "?" ++ query.
Definition fragment_suffix (fragment : string) : string :=
  if is_empty fragment then "" else "#" ++ fragment.

(** The path text of a link: the path, [;params] when there are any,
    and a leading slash when the text is not empty and lacks one. *)
Definition path_text (path params : string) : string :=
  let url := if is_empty params then path else path ++ ";" ++ params in
  if negb (is_empty url) && negb (starts_with "/" url)
  then "/" ++ url else url.

(** Characters a netloc returned by [urlsplit] can hold: no path, query
    or fragment delimiter, no tab, CR or LF. *)
Definition netloc_char (c : ascii) : bool :=
  negb (is_netloc_delim c) && negb (is_unsafe_byte c).

(** Characters [urlsplit] keeps: everything but tab, CR and LF. *)
Definition safe_char (c : ascii) : bool := negb (is_unsafe_byte c).

(** Characters of a query returned by [urlsplit]: no [#]. *)
Definition query_char (c : ascii) : bool :=
  safe_char c && negb (Ascii.eqb c "#").

(** Characters of a path or of params returned by [urlsplit]: neither
    [#] nor [?]. *)
Definition path_char (c : ascii) : bool :=
  query_char c && negb (Ascii.eqb c "?").

(** Characters of a path that is not cut short when parsed: no [;]
    either. *)
Definition plain_path_char (c : ascii) : bool :=
  path_char c && negb (Ascii.eqb c ";").

(** Characters of a host name cut out of a netloc without brackets. *)
Definition host_char (c : ascii) : bool :=
  netloc_char c && negb (Ascii.eqb c "[") && negb (Ascii.eqb c "]")
  && negb (Ascii.eqb c ":") && negb (Ascii.eqb c "@").

Definition lower_scheme_char (c : ascii) : bool :=
  is_scheme_char c && negb (is_ascii_upper c).

(** The schemes [urlsplit] returns: empty, or a letter followed by
    scheme characters, none of them a capital. *)
Definition is_scheme (s : string) : bool :=
  all_chars lower_scheme_char s
  && match s with String c _ => is_ascii_alpha c | EmptyString => true end.

(** What follows the netloc in a URL: nothing, or text opened by one of
    the delimiters [/], [?], [#]. *)
Definition is_tail (t : string) : bool :=
  match t with String c _ => is_netloc_delim c | EmptyString => true end.

(** The link built for one index: the parsed base URL with its netloc
    replaced by [base_hostname.tld] and its path by [path]. *)
Definition link_for (parsed_url : ParseResult)
    (base_hostname tld path : string) : string :=
  urlunparse (_replace parsed_url (base_hostname ++ "." ++ tld) path).

(** [link] is what the loop appends for index [i]. *)
Definition link_at (parsed_url : ParseResult)
    (base_hostname path_pattern : string) (i : Z) (link : string) : Prop :=
  exists path tld,
    Format.format path_pattern i = Returns path
    /\ is_tld_value tld = true
    /\ link = link_for parsed_url base_hostname tld path.

(** The world after the closing [logging.info] of [generate_links]. *)
Definition generated_log (w : world) (n : nat) (base_url : string) : world :=
  {| gen := gen w;
     log := (log w ++ [(INFO, ("Generated " ++ str_of_int (Z.of_nat n)
                               ++ " links based on " ++ base_url)%string)])%list |}.

Fixpoint last_char (s : string) : option ascii :=
  match s with
  | EmptyString => None
  | String c s' =>
      match s' with
      | EmptyString => Some c
      | String _ _ => last_char s'
      end
  end.

(** A stand-in for [_check_bracketed_host] used to evaluate closed
    examples: like Python it accepts the loopback literal; it rejects
    everything else. *)
Definition loopback_only (h : string) : option string :=
  if String.eqb h "::1" then None
  else Some (repr h ++ " does not appear to be an IPv4 or IPv6 address").

(** A sample generator state for closed examples. *)
Definition sample_world : world :=
  {| gen := {| tape := fun n => 7 * n + 3; pos := 0 |}; log := [] |}.

End Spec.
Import UrlParse RRL Spec.

(* ================================================================== *)
(** * Properties *)

(** ** The state monad *)

Lemma bind_returns {A B} (m : M A) (k : A -> M B) w a w' :
  m w = (Returns a, w') -> bind m k w = k a w'.
Proof. intros H. unfold bind. now rewrite H. Qed.

Lemma bind_not_returns {A B} (m : M A) (k : A -> M B) w w' b :
  bind m k w = (Returns b, w') ->
  exists a w1, m w = (Returns a, w1) /\ k a w1 = (Returns b, w').
Proof.
  unfold bind. destruct (m w) as [[a | e | ] w1]; intros H;
    try discriminate. now exists a, w1.
Qed.

(** ** The TLD selector *)

Lemma randbelow_lt n g : 0 < n -> fst (randbelow n g) < n.
Proof. intros Hn. simpl. apply Nat.mod_upper_bound. lia. Qed.

Lemma draw_returns n w :
  exists j w', Random.draw n w = (Returns j, w')
               /\ (0 < n -> j < n) /\ log w' = log w.
Proof.
  unfold Random.draw. destruct (randbelow n (gen w)) as [j g] eqn:E.
  exists j, {| gen := g; log := log w |}. repeat split.
  intros Hn. pose proof (randbelow_lt n (gen w) Hn) as H.
  now rewrite E in H.
Qed.

Lemma choice_returns {A} (d : A) (l : list A) w :
  exists x w', Random.choice (d :: l) w = (Returns x, w')
               /\ In x (d :: l) /\ log w' = log w.
Proof.
  unfold Random.choice.
  destruct (draw_returns (List.length (d :: l)) w) as (j & w' & E & Hj & Hl).
  exists (nth j (d :: l) d), w'. rewrite (bind_returns _ _ _ _ _ E).
  repeat split; auto. apply nth_In. apply Hj. simpl. lia.
Qed.

Lemma ascii_lowercase_get j :
  j < 26 -> exists c, String.get j ascii_lowercase = Some c
                      /\ is_ascii_lower c = true.
Proof.
  intros Hj. unfold ascii_lowercase.
  do 26 (destruct j as [| j]; [eexists; split; reflexivity |]).
  lia.
Qed.

Lemma choices_succ population k :
  Random.choices population (S k) =
  (j <- Random.draw (String.length population) ;;
   match String.get j population with
   | Some c => rest <- Random.choices population k ;;
               ret (String c EmptyString :: rest)
   | None => raise (IndexError "string index out of range")
   end).
Proof. reflexivity. Qed.

Lemma choices_returns k : forall w,
  exists l w', Random.choices ascii_lowercase k w = (Returns l, w')
    /\ String.length (concat_all l) = k
    /\ all_chars is_ascii_lower (concat_all l) = true
    /\ log w' = log w.
Proof.
  induction k as [| k IH]; intros w.
  - exists [], w. now repeat split.
  - rewrite choices_succ.
    destruct (draw_returns (String.length ascii_lowercase) w)
      as (j & w1 & E & Hj & Hl).
    rewrite (bind_returns _ _ _ _ _ E).
    destruct (ascii_lowercase_get j) as (c & Hc & Hlow).
    { apply Hj. simpl. lia. }
    rewrite Hc. destruct (IH w1) as (l & w2 & E2 & Hlen & Hall & Hl2).
    rewrite (bind_returns _ _ _ _ _ E2).
    exists (String c EmptyString :: l), w2. unfold ret. simpl.
    rewrite Hlen, Hlow, Hall. repeat split; congruence.
Qed.

Lemma generate_random_tld_returns w :
  exists tld w', generate_random_tld None w = (Returns tld, w')
                 /\ is_tld_value tld = true /\ log w' = log w.
Proof.
  unfold generate_random_tld.
  destruct (choice_returns true [false] w) as (coin & w1 & E1 & _ & L1).
  rewrite (bind_returns _ _ _ _ _ E1).
  destruct coin.
  - destruct (choice_returns "com"
                ["net"; "org"; "info"; "biz"; "co"; "us"; "uk"] w1)
      as (t & w2 & E2 & Hin & L2).
    change ("com" :: _) with default_common_tlds in E2, Hin.
    rewrite (bind_returns _ _ _ _ _ E2).
    exists t, w2. unfold bind, logging_debug, logging_log, ret. simpl.
    repeat split; try congruence.
    unfold is_tld_value. apply orb_true_iff. left.
    unfold mem. apply existsb_exists. exists t. split; auto.
    apply String.eqb_refl.
  - destruct (choice_returns 2 [3] w1) as (k & w2 & E2 & Hin & L2).
    destruct (choices_returns k w2) as (l & w3 & E3 & Hlen & Hall & L3).
    exists (concat_all l), w3.
    unfold bind at 1. unfold bind at 1. rewrite E2.
    unfold bind at 1. rewrite E3.
    unfold ret, bind, logging_debug, logging_log. simpl.
    repeat split; try congruence.
    unfold is_tld_value. apply orb_true_iff. right.
    rewrite Hall, Hlen. destruct Hin as [<- | [<- | []]]; reflexivity.
Qed.

(** ** The loop of [generate_links] *)

Lemma links_loop_inv p b pat : forall idx acc w links w',
  links_loop p b pat idx acc w = (Returns links, w') ->
  exists news, links = (acc ++ news)%list
               /\ Forall2 (link_at p b pat) idx news
               /\ log w' = log w.
Proof.
  induction idx as [| i idx IH]; intros acc w links w' H.
  - inversion H; subst. exists []. rewrite app_nil_r. auto.
  - simpl in H.
    apply bind_not_returns in H. destruct H as (path & w1 & Hf & H).
    unfold lift in Hf. inversion Hf; subst w1; clear Hf.
    apply bind_not_returns in H. destruct H as (tld & w2 & Ht & H).
    destruct (generate_random_tld_returns w) as (t' & w2' & Ht' & Hv & Hl).
    rewrite Ht in Ht'. inversion Ht'; subst t' w2'; clear Ht'.
    apply IH in H. destruct H as (news & -> & HF & Hl2).
    exists (link_for p b tld path :: news). repeat split.
    + now rewrite <- app_assoc.
    + constructor; auto. now exists path, tld.
    + congruence.
Qed.

Lemma links_loop_returns p b pat : forall idx acc w,
  (forall i, In i idx -> exists s, Format.format pat i = Returns s) ->
  exists links w', links_loop p b pat idx acc w = (Returns links, w').
Proof.
  induction idx as [| i idx IH]; intros acc w Hfmt.
  - now exists acc, w.
  - destruct (Hfmt i (or_introl eq_refl)) as (s & Hs).
    destruct (generate_random_tld_returns w) as (t & w1 & Ht & _ & _).
    destruct (IH (acc ++ [link_for p b t s])%list w1) as (links & w' & H).
    { intros j Hj. apply Hfmt. now right. }
    exists links, w'. simpl. unfold bind at 1, lift. rewrite Hs.
    unfold bind at 1. rewrite Ht. exact H.
Qed.

(** A failing format on the first index stops the loop before any link
    is kept. *)
Lemma links_loop_raises p b pat i idx acc w e :
  Format.format pat i = Raises e ->
  links_loop p b pat (i :: idx) acc w = (Raises e, w).
Proof. intros H. simpl. unfold bind, lift. now rewrite H. Qed.

(** ** [generate_links] on a base URL with a hostname *)

Section GenerateLinks.

Variable chk : string -> option string.

Lemma generate_links_unfold base_url num_links pat p h w :
  urlparse chk base_url = Returns p ->
  hostname p = Some h ->
  generate_links chk base_url num_links pat w =
  match links_loop p (split_head "." h) pat
          (py_range 1 (num_links + 1)) [] w with
  | (Returns links, w') =>
      (Returns links, generated_log w' (List.length links) base_url)
  | (Raises e, w') => (Raises e, w')
  | (Beyond, w') => (Beyond, w')
  end.
Proof.
  intros Hp Hh. unfold generate_links, bind, catch_ValueError, lift.
  rewrite Hp, Hh. unfold ret.
  destruct (links_loop _ _ _ _ _ w) as [[l | e | ] w']; reflexivity.
Qed.

Lemma generate_links_no_hostname base_url num_links pat p w :
  urlparse chk base_url = Returns p ->
  hostname p = None ->
  generate_links chk base_url num_links pat w =
  (Raises (AttributeError "'NoneType' object has no attribute 'split'"), w).
Proof.
  intros Hp Hh. unfold generate_links, bind, catch_ValueError, lift.
  now rewrite Hp, Hh.
Qed.

Lemma generate_links_unparseable base_url num_links pat msg w :
  urlparse chk base_url = Raises (ValueError msg) ->
  generate_links chk base_url num_links pat w =
  (Raises (ValueError ("Invalid base URL: " ++ base_url)),
   {| gen := gen w;
      log := (log w ++ [(ERROR, ("Invalid base URL: " ++ base_url)%string)])%list |}).
Proof.
  intros Hp. unfold generate_links, bind, catch_ValueError, lift.
  now rewrite Hp.
Qed.

(** Whatever [generate_links] returns was built index by index from a
    parsed base URL that has a hostname. *)
Lemma generate_links_inv base_url num_links pat w links w' :
  generate_links chk base_url num_links pat w = (Returns links, w') ->
  exists p h,
    urlparse chk base_url = Returns p
    /\ hostname p = Some h
    /\ Forall2 (link_at p (split_head "." h) pat)
         (py_range 1 (num_links + 1)) links.
Proof.
  intros H.
  destruct (urlparse chk base_url) as [p | e | ] eqn:Hp.
  - destruct (hostname p) as [h | ] eqn:Hh.
    + rewrite (generate_links_unfold _ _ _ _ _ _ Hp Hh) in H.
      destruct (links_loop _ _ _ _ _ w) as [[l | e | ] w1] eqn:Hl;
        try discriminate.
      inversion H; subst. apply links_loop_inv in Hl.
      destruct Hl as (news & -> & HF & _). exists p, h. auto.
    + rewrite (generate_links_no_hostname _ _ _ _ _ Hp Hh) in H.
      discriminate.
  - unfold generate_links, bind, catch_ValueError, lift in H.
    rewrite Hp in H. destruct e; discriminate.
  - unfold generate_links, bind, catch_ValueError, lift in H.
    rewrite Hp in H. discriminate.
Qed.

End GenerateLinks.

(** ** [str.format] on patterns made of literal text and [{}] *)

Lemma brace_free_cons c s :
  brace_free (String c s) = true ->
  Ascii.eqb c "{" = false /\ Ascii.eqb c "}" = false /\ brace_free s = true.
Proof.
  unfold brace_free. simpl. intros H.
  apply andb_true_iff in H. destruct H as [H1 H2].
  apply negb_true_iff, orb_false_iff in H1.
  apply negb_true_iff, orb_false_iff in H2.
  destruct H1 as [-> ->], H2 as [-> ->]. auto.
Qed.

Lemma do_markup_text_char c rest an arg :
  Ascii.eqb c "{" = false -> Ascii.eqb c "}" = false ->
  Format.do_markup Format.Text an arg (String c rest) =
  Format.prepend c (Format.do_markup Format.Text an arg rest).
Proof. intros H1 H2. simpl. now rewrite H1, H2. Qed.

Lemma do_markup_text_app an arg s : forall pre,
  brace_free pre = true ->
  Format.do_markup Format.Text an arg (pre ++ s) =
  match Format.do_markup Format.Text an arg s with
  | Returns out => Returns (pre ++ out)
  | Raises e => Raises e
  | Beyond => Beyond
  end.
Proof.
  induction pre as [| c pre IH]; intros Hbf.
  - simpl. now destruct (Format.do_markup _ _ _ s).
  - apply brace_free_cons in Hbf. destruct Hbf as (H1 & H2 & Hbf).
    change (String c pre ++ s) with (String c (pre ++ s)).
    rewrite (do_markup_text_char _ _ _ _ H1 H2), (IH Hbf).
    now destruct (Format.do_markup _ _ _ s).
Qed.

Lemma do_markup_literal an arg : forall s,
  brace_free s = true -> Format.do_markup Format.Text an arg s = Returns s.
Proof.
  induction s as [| c s IH]; intros Hbf; [reflexivity |].
  apply brace_free_cons in Hbf. destruct Hbf as (H1 & H2 & Hbf).
  now rewrite (do_markup_text_char _ _ _ _ H1 H2), (IH Hbf).
Qed.

(** A field [{}] met in literal text is rendered by [render_field] on the
    empty name, and the scan goes on after it. *)
Lemma do_markup_empty_field an arg rest :
  Format.do_markup Format.Text an arg ("{}" ++ rest) =
  match Format.render_field "" an arg with
  | Returns (text, an') =>
      match Format.do_markup Format.Text an' arg rest with
      | Returns out => Returns (text ++ out)
      | r => r
      end
  | Raises e => Raises e
  | Beyond => Beyond
  end.
Proof. reflexivity. Qed.


Lemma format_single pre post i :
  brace_free pre = true -> brace_free post = true ->
  Format.format (pre ++ "{}" ++ post) i
  = Returns (pre ++ str_of_int i ++ post).
Proof.
  intros Hpre Hpost. unfold Format.format.
  rewrite (do_markup_text_app _ _ _ _ Hpre), do_markup_empty_field.
  change (Format.render_field "" Format.an_init i)
    with (Returns (str_of_int i,
                   {| Format.an_mode := Format.ANS_AUTO;
                      Format.an_field_number := 1 |})).
  cbv beta iota. now rewrite (do_markup_literal _ _ _ Hpost).
Qed.


(** ** [range(1, n + 1)] *)

Lemma py_range_length lo hi :
  List.length (py_range lo hi) = Z.to_nat (hi - lo).
Proof. unfold py_range. now rewrite length_map, length_seq. Qed.

Lemma py_range_nth lo hi k :
  k < Z.to_nat (hi - lo) ->
  nth_error (py_range lo hi) k = Some (lo + Z.of_nat k)%Z.
Proof.
  intros Hk. unfold py_range.
  rewrite nth_error_map, nth_error_seq.
  destruct (Nat.ltb_spec k (Z.to_nat (hi - lo))); [reflexivity | lia].
Qed.

Lemma py_range_nonpositive n : (n <= 0)%Z -> py_range 1 (n + 1) = [].
Proof.
  intros Hn. unfold py_range.
  replace (Z.to_nat (n + 1 - 1)) with 0 by lia. reflexivity.
Qed.

Lemma py_range_head n :
  (1 <= n)%Z ->
  exists idx, py_range 1 (n + 1) = 1%Z :: idx.
Proof.
  intros Hn. unfold py_range.
  destruct (Z.to_nat (n + 1 - 1)) as [| m] eqn:E; [lia |].
  simpl. eexists. reflexivity.
Qed.

Lemma Forall2_nth_error {A B} (R : A -> B -> Prop) l l' :
  Forall2 R l l' ->
  forall k a, nth_error l k = Some a ->
  exists b, nth_error l' k = Some b /\ R a b.
Proof.
  induction 1 as [| x y l l' Hxy HF IH]; intros k a Hk.
  - destruct k; discriminate.
  - destruct k as [| k]; simpl in *.
    + inversion Hk; subst. now exists y.
    + now apply IH.
Qed.

Lemma Forall2_In_r {A B} (R : A -> B -> Prop) l l' :
  Forall2 R l l' ->
  forall b, In b l' -> exists a, In a l /\ R a b.
Proof.
  induction 1 as [| x y l l' Hxy HF IH]; intros b Hb.
  - destruct Hb.
  - destruct Hb as [<- | Hb].
    + exists x. split; [now left | assumption].
    + destruct (IH b Hb) as (a & Ha & HR). exists a. split; [now right | assumption].
Qed.

(** ** The shuffle *)

Lemma list_set_nth_same {A} (v : A) : forall x i a,
  nth_error x i = Some a -> nth_error (Random.list_set i v x) i = Some v.
Proof.
  induction x as [| h t IH]; intros [| i] a H; simpl in *;
    try discriminate; eauto.
Qed.

Lemma list_set_nth_other {A} (v : A) : forall x i j,
  i <> j -> nth_error (Random.list_set i v x) j = nth_error x j.
Proof.
  induction x as [| h t IH]; intros [| i] [| j] H; simpl; auto.
  - contradiction.
Qed.

(** Overwriting position [i], which held [a], by [v]: the old list with
    [v] added has the same elements as the new list with [a] added. *)
Lemma list_set_permutation {A} (v : A) : forall x i a,
  nth_error x i = Some a ->
  Permutation (a :: Random.list_set i v x) (v :: x).
Proof.
  induction x as [| h t IH]; intros [| i] a H; simpl in *;
    try discriminate.
  - inversion H; subst. apply perm_swap.
  - eapply perm_trans; [apply perm_swap |].
    eapply perm_trans; [apply perm_skip, (IH _ _ H) |].
    apply perm_swap.
Qed.

Lemma swap_permutation {A} (i j : nat) (x : list A) :
  Permutation (Random.swap i j x) x.
Proof.
  unfold Random.swap.
  destruct (nth_error x i) as [a |] eqn:Hi; [| reflexivity].
  destruct (nth_error x j) as [b |] eqn:Hj; [| reflexivity].
  assert (Hj' : nth_error (Random.list_set i b x) j = Some b).
  { destruct (Nat.eq_dec i j) as [-> | Hne].
    - eapply list_set_nth_same; eauto.
    - now rewrite list_set_nth_other. }
  pose proof (list_set_permutation a _ _ _ Hj') as P1.
  pose proof (list_set_permutation b _ _ _ Hi) as P2.
  apply Permutation_cons_inv with (a := b).
  eapply perm_trans; [exact P1 |]. exact P2.
Qed.

Lemma shuffle_from_permutation {A} : forall i (x : list A) g,
  Permutation (fst (Random.shuffle_from i x g)) x.
Proof.
  induction i as [| i IH]; intros x g; [reflexivity |].
  simpl Random.shuffle_from.
  destruct (randbelow (S i + 1) g) as [j g'].
  eapply perm_trans; [apply IH | apply swap_permutation].
Qed.

(* ================================================================== *)
(** * Strings: splitting and character classes *)

Lemma append_assoc (a b c : string) : (a ++ b) ++ c = a ++ (b ++ c).
Proof. induction a as [| x a IH]; simpl; [reflexivity | now rewrite IH]. Qed.

Lemma append_nil_r (a : string) : a ++ "" = a.
Proof. induction a as [| x a IH]; simpl; [reflexivity | now rewrite IH]. Qed.

Lemma contains_app c a b :
  contains c (a ++ b) = contains c a || contains c b.
Proof.
  induction a as [| x a IH]; simpl; [reflexivity |].
  now rewrite IH, orb_assoc.
Qed.

Lemma all_chars_app P a b :
  all_chars P (a ++ b) = all_chars P a && all_chars P b.
Proof.
  induction a as [| x a IH]; simpl; [reflexivity |].
  now rewrite IH, andb_assoc.
Qed.

Lemma all_chars_impl (P Q : ascii -> bool) s :
  (forall c, P c = true -> Q c = true) ->
  all_chars P s = true -> all_chars Q s = true.
Proof.
  intros HPQ. induction s as [| x s IH]; simpl; [reflexivity |].
  intros H. apply andb_true_iff in H. destruct H as [Hx Hs].
  now rewrite (HPQ _ Hx), IH.
Qed.

Lemma all_chars_not_contains P c s :
  P c = false -> all_chars P s = true -> contains c s = false.
Proof.
  intros Hc. induction s as [| x s IH]; simpl; [reflexivity |].
  intros H. apply andb_true_iff in H. destruct H as [Hx Hs].
  rewrite (IH Hs), orb_false_r.
  destruct (Ascii.eqb_spec x c) as [-> | ]; [congruence | reflexivity].
Qed.

Lemma map_chars_id f P s :
  (forall c, P c = true -> f c = c) ->
  all_chars P s = true -> map_chars f s = s.
Proof.
  intros Hf. induction s as [| x s IH]; simpl; [reflexivity |].
  intros H. apply andb_true_iff in H. destruct H as [Hx Hs].
  now rewrite (Hf _ Hx), IH.
Qed.

(** [partition]: the three parts glue back to the input, and the head
    holds no separator. *)
Lemma partition_spec c : forall s h found t,
  partition c s = (h, found, t) ->
  contains c h = false
  /\ (if found then s = h ++ String c t else s = h /\ t = "").
Proof.
  induction s as [| x s IH]; intros h found t H; simpl in H.
  - inversion H; subst. auto.
  - destruct (Ascii.eqb_spec x c) as [-> | Hne].
    + inversion H; subst. auto.
    + destruct (partition c s) as [[h' f'] t'] eqn:E.
      inversion H; subst. destruct (IH _ _ _ eq_refl) as [Hh Hs].
      simpl. rewrite Hh. split.
      * apply orb_false_iff. split; [now apply Ascii.eqb_neq | reflexivity].
      * destruct found; [now rewrite Hs at 1 |].
        destruct Hs as [Hs ->]. now rewrite Hs at 1.
Qed.

Lemma partition_absent c : forall s,
  contains c s = false -> partition c s = (s, false, "").
Proof.
  induction s as [| x s IH]; simpl; intros H; [reflexivity |].
  apply orb_false_iff in H. destruct H as [Hx Hs].
  now rewrite Hx, (IH Hs).
Qed.

Lemma partition_at c t : forall h,
  contains c h = false -> partition c (h ++ String c t) = (h, true, t).
Proof.
  induction h as [| x h IH]; simpl; intros H.
  - now rewrite Ascii.eqb_refl.
  - apply orb_false_iff in H. destruct H as [Hx Hs].
    now rewrite Hx, (IH Hs).
Qed.

Lemma rsplit_last_absent c : forall s,
  contains c s = false -> rsplit_last c s = None.
Proof.
  induction s as [| x s IH]; simpl; intros H; [reflexivity |].
  apply orb_false_iff in H. destruct H as [Hx Hs].
  now rewrite (IH Hs), Hx.
Qed.

Lemma rsplit_last_spec c : forall s h t,
  rsplit_last c s = Some (h, t) ->
  s = h ++ String c t /\ contains c t = false.
Proof.
  induction s as [| x s IH]; intros h t H; simpl in H; [discriminate |].
  destruct (rsplit_last c s) as [[h' t'] |] eqn:E.
  - inversion H; subst. destruct (IH _ _ eq_refl) as [-> Ht]. auto.
  - destruct (Ascii.eqb_spec x c) as [-> | ]; [| discriminate].
    inversion H; subst. split; [reflexivity |].
    destruct (contains c t) eqn:Hc; [| reflexivity].
    clear -E Hc. exfalso. revert E Hc.
    induction t as [| y t IH]; simpl; [discriminate |].
    destruct (rsplit_last c t) as [[? ?] |]; [discriminate |].
    destruct (Ascii.eqb y c); [discriminate |]. simpl. auto.
Qed.

Lemma rsplit_last_at c t : forall h,
  contains c t = false -> rsplit_last c (h ++ String c t) = Some (h, t).
Proof.
  intros h Ht. induction h as [| x h IH]; simpl.
  - now rewrite (rsplit_last_absent _ _ Ht), Ascii.eqb_refl.
  - now rewrite IH.
Qed.

Lemma rpartition_spec c s h found t :
  rpartition c s = (h, found, t) ->
  contains c t = false /\ exists pre, s = pre ++ t.
Proof.
  unfold rpartition. destruct (rsplit_last c s) as [[h' t'] |] eqn:E;
    intros H; inversion H; subst.
  - destruct (rsplit_last_spec _ _ _ _ E) as [-> Ht]. split; [assumption |].
    exists (h ++ String c ""). now rewrite append_assoc.
  - split; [| now exists ""].
    destruct (contains c t) eqn:Hc; [| reflexivity].
    exfalso. clear H. revert E Hc.
    induction t as [| y t IH]; simpl; [discriminate |].
    destruct (rsplit_last c t) as [[? ?] |]; [discriminate |].
    destruct (Ascii.eqb y c); [discriminate |]. simpl. auto.
Qed.

Lemma span_until_spec P : forall s h t,
  span_until P s = (h, t) ->
  s = h ++ t
  /\ all_chars (fun c => negb (P c)) h = true
  /\ (t = "" \/ exists c t', t = String c t' /\ P c = true).
Proof.
  induction s as [| x s IH]; intros h t H; simpl in H.
  - inversion H; subst. auto.
  - destruct (P x) eqn:Px.
    + inversion H; subst. repeat split. right. now exists x, s.
    + destruct (span_until P s) as [h' t'] eqn:E. inversion H; subst.
      destruct (IH _ _ eq_refl) as (-> & Hh & Ht). simpl.
      now rewrite Px, Hh.
Qed.

Lemma span_until_at P t : forall h,
  all_chars (fun c => negb (P c)) h = true ->
  (t = "" \/ exists c t', t = String c t' /\ P c = true) ->
  span_until P (h ++ t) = (h, t).
Proof.
  induction h as [| x h IH]; simpl; intros Hh Ht.
  - destruct Ht as [-> | (c & t' & -> & Hc)]; [reflexivity |].
    simpl. now rewrite Hc.
  - apply andb_true_iff in Hh. destruct Hh as [Hx Hh].
    apply negb_true_iff in Hx. now rewrite Hx, (IH Hh Ht).
Qed.

Lemma filter_chars_all P : forall s, all_chars P (filter_chars P s) = true.
Proof.
  induction s as [| x s IH]; simpl; [reflexivity |].
  destruct (P x) eqn:Px; simpl; [now rewrite Px |]; assumption.
Qed.

Lemma filter_chars_app P a b :
  filter_chars P (a ++ b) = filter_chars P a ++ filter_chars P b.
Proof.
  induction a as [| x a IH]; simpl; [reflexivity |].
  destruct (P x); simpl; now rewrite IH.
Qed.

Lemma filter_chars_id P : forall s,
  all_chars P s = true -> filter_chars P s = s.
Proof.
  induction s as [| x s IH]; simpl; [reflexivity |].
  intros H. apply andb_true_iff in H. destruct H as [Hx Hs].
  now rewrite Hx, IH.
Qed.

Lemma all_chars_suffix P a b :
  all_chars P (a ++ b) = true -> all_chars P b = true.
Proof. rewrite all_chars_app. intros H. now apply andb_true_iff in H. Qed.

Lemma all_chars_prefix P a b :
  all_chars P (a ++ b) = true -> all_chars P a = true.
Proof. rewrite all_chars_app. intros H. now apply andb_true_iff in H. Qed.

(** ** Character classes, by inspection of the 256 code points *)

Ltac each_char c :=
  destruct c as [[] [] [] [] [] [] [] []]; vm_compute;
  repeat split; intros; congruence.

Lemma lower_char_idem c : lower_char (lower_char c) = lower_char c.
Proof. each_char c. Qed.

Lemma lower_char_percent c :
  Ascii.eqb (lower_char c) "%" = Ascii.eqb c "%".
Proof. each_char c. Qed.

Lemma lower_char_dot c : Ascii.eqb (lower_char c) "." = Ascii.eqb c ".".
Proof. each_char c. Qed.

Lemma lower_char_host c :
  host_char c = true -> host_char (lower_char c) = true.
Proof. each_char c. Qed.

Lemma lower_char_scheme c :
  is_scheme_char c = true -> lower_scheme_char (lower_char c) = true.
Proof. each_char c. Qed.

Lemma lower_char_alpha c :
  is_ascii_alpha c = true -> is_ascii_alpha (lower_char c) = true.
Proof. each_char c. Qed.

Lemma lower_scheme_char_facts c :
  lower_scheme_char c = true ->
  lower_char c = c
  /\ is_scheme_char c = true
  /\ Ascii.eqb c ":" = false
  /\ negb (is_unsafe_byte c) = true.
Proof. each_char c. Qed.

Lemma alpha_not_stripped c :
  is_ascii_alpha c = true -> is_c0_control_or_space c = false.
Proof. each_char c. Qed.

Lemma ascii_lower_facts c :
  is_ascii_lower c = true ->
  host_char c = true
  /\ lower_char c = c
  /\ Ascii.eqb c "%" = false
  /\ Ascii.eqb c "." = false
  /\ is_ascii_digit c = false.
Proof. each_char c. Qed.

Lemma host_char_facts c :
  host_char c = true ->
  negb (is_netloc_delim c) = true
  /\ negb (is_unsafe_byte c) = true
  /\ Ascii.eqb c "[" = false /\ Ascii.eqb c "]" = false
  /\ Ascii.eqb c ":" = false /\ Ascii.eqb c "@" = false.
Proof. each_char c. Qed.

Lemma netloc_delim_safe c :
  is_netloc_delim c = true -> negb (is_unsafe_byte c) = true.
Proof. each_char c. Qed.

(** ** What [urlparse] returns *)

Lemma all_chars_map_to (P Q : ascii -> bool) f s :
  (forall c, P c = true -> Q (f c) = true) ->
  all_chars P s = true -> all_chars Q (map_chars f s) = true.
Proof.
  intros Hf. induction s as [| x s IH]; simpl; [reflexivity |].
  intros H. apply andb_true_iff in H. destruct H as [Hx Hs].
  now rewrite (Hf _ Hx), IH.
Qed.

Lemma split_scheme_spec u sch rest :
  split_scheme u = (sch, rest) ->
  is_scheme sch = true /\ exists pre, u = pre ++ rest.
Proof.
  unfold split_scheme.
  destruct (partition ":" u) as [[pre found] post] eqn:E.
  destruct (partition_spec _ _ _ _ _ E) as [_ Hu].
  destruct found; simpl.
  - destruct pre as [| c pre']; simpl.
    + intros H. inversion H; subst. split; [reflexivity | now exists ""].
    + destruct (is_ascii_alpha c) eqn:Hc; simpl.
      * destruct (is_scheme_char c && all_chars is_scheme_char pre') eqn:Hall;
          intros H; inversion H; subst.
        -- split.
           ++ unfold is_scheme, lower. simpl.
              apply andb_true_iff in Hall. destruct Hall as [H1 H2].
              rewrite (lower_char_scheme _ H1), (lower_char_alpha _ Hc).
              rewrite (all_chars_map_to is_scheme_char lower_scheme_char);
                auto using lower_char_scheme.
           ++ exists (String c pre' ++ ":"). now rewrite append_assoc.
        -- split; [reflexivity | now exists ""].
      * intros H. inversion H; subst. split; [reflexivity | now exists ""].
  - intros H. inversion H; subst. split; [reflexivity | now exists ""].
Qed.

Lemma after_double_slash_spec url rest :
  after_double_slash url = Some rest -> url = "//" ++ rest.
Proof.
  destruct url as [| a [| b url]]; simpl; try discriminate.
  destruct (Ascii.eqb_spec a "/") as [-> |]; [| discriminate].
  destruct (Ascii.eqb_spec b "/") as [-> |]; [| discriminate].
  simpl. now intros [= ->].
Qed.

Lemma all_chars_and (P Q : ascii -> bool) s :
  all_chars P s = true -> all_chars Q s = true ->
  all_chars (fun c => P c && Q c) s = true.
Proof.
  induction s as [| x s IH]; simpl; [reflexivity |].
  intros HP HQ. apply andb_true_iff in HP, HQ.
  destruct HP as [-> HP], HQ as [-> HQ]. now rewrite IH.
Qed.

Section Parsed.

Variable chk : string -> option string.

Lemma urlsplit_components u sch nl pth q f :
  urlsplit chk u = Returns (sch, nl, pth, q, f) ->
  is_scheme sch = true
  /\ all_chars netloc_char nl = true
  /\ contains "[" nl = contains "]" nl.
Proof.
  unfold urlsplit.
  set (u1 := filter_chars _ (lstrip is_c0_control_or_space u)).
  assert (Hsafe : all_chars (fun c => negb (is_unsafe_byte c)) u1 = true)
    by apply filter_chars_all.
  destruct (split_scheme u1) as [sch0 rest] eqn:Hs.
  destruct (split_scheme_spec _ _ _ Hs) as (Hsch & pre & Hu1).
  rewrite Hu1 in Hsafe. apply all_chars_suffix in Hsafe.
  destruct (after_double_slash rest) as [after |] eqn:Ha.
  - apply after_double_slash_spec in Ha. subst rest.
    apply (all_chars_suffix _ "//") in Hsafe.
    destruct (_splitnetloc after) as [nl0 url0] eqn:Hn.
    unfold _splitnetloc in Hn.
    destruct (span_until_spec _ _ _ _ Hn) as (-> & Hnl & _).
    apply all_chars_prefix in Hsafe.
    pose proof (all_chars_and _ _ _ Hnl Hsafe) as Hchars.
    destruct (contains "[" nl0) eqn:Ho, (contains "]" nl0) eqn:Hc;
      simpl; try discriminate.
    + destruct (_check_bracketed_netloc chk nl0); [discriminate |].
      destruct (split_fragment_query url0) as [[p1 q1] f1].
      intros H. inversion H; subst. now rewrite Ho, Hc.
    + destruct (split_fragment_query url0) as [[p1 q1] f1].
      intros H. inversion H; subst. now rewrite Ho, Hc.
  - destruct (split_fragment_query rest) as [[p1 q1] f1].
    intros H. inversion H; subst. auto.
Qed.

Lemma urlparse_components u p :
  urlparse chk u = Returns p ->
  is_scheme (scheme p) = true
  /\ all_chars netloc_char (netloc p) = true
  /\ contains "[" (netloc p) = contains "]" (netloc p).
Proof.
  unfold urlparse.
  destruct (urlsplit chk u) as [[[[[sch nl] pth] q] f] | e | ] eqn:E;
    try discriminate.
  apply urlsplit_components in E.
  destruct (mem sch uses_params && contains ";" pth).
  - destruct (_splitparams pth) as [pth' prm].
    intros H. inversion H; subst. exact E.
  - intros H. inversion H; subst. exact E.
Qed.

End Parsed.

(** ** Host names *)

Lemma lower_host_cons x s :
  lower_host (String x s) =
  if Ascii.eqb x "%" then String x s
  else String (lower_char x) (lower_host s).
Proof.
  unfold lower_host. simpl.
  destruct (Ascii.eqb_spec x "%") as [-> | Hne]; [reflexivity |].
  now destruct (partition "%" s) as [[a pct] z].
Qed.

Lemma lower_host_idem : forall s, lower_host (lower_host s) = lower_host s.
Proof.
  induction s as [| x s IH]; [reflexivity |].
  rewrite lower_host_cons. destruct (Ascii.eqb x "%") eqn:E.
  - now rewrite lower_host_cons, E.
  - now rewrite lower_host_cons, lower_char_percent, E, lower_char_idem, IH.
Qed.

Lemma split_head_cons c x s :
  split_head c (String x s) =
  if Ascii.eqb x c then "" else String x (split_head c s).
Proof.
  unfold split_head. simpl. destruct (Ascii.eqb x c); [reflexivity |].
  now destruct (partition c s) as [[h f] t].
Qed.

Lemma lower_host_split_head : forall s,
  lower_host (split_head "." s) = split_head "." (lower_host s).
Proof.
  induction s as [| x s IH]; [reflexivity |].
  rewrite split_head_cons, (lower_host_cons x s).
  destruct (Ascii.eqb x ".") eqn:Ed.
  - destruct (Ascii.eqb x "%") eqn:Ep.
    + now rewrite split_head_cons, Ed.
    + now rewrite split_head_cons, lower_char_dot, Ed.
  - rewrite lower_host_cons. destruct (Ascii.eqb x "%") eqn:Ep.
    + now rewrite split_head_cons, Ed.
    + now rewrite split_head_cons, lower_char_dot, Ed, IH.
Qed.

Lemma lower_host_lowercase : forall t,
  all_chars is_ascii_lower t = true -> lower_host t = t.
Proof.
  induction t as [| x t IH]; [reflexivity |]. simpl. intros H.
  apply andb_true_iff in H. destruct H as [Hx Ht].
  destruct (ascii_lower_facts _ Hx) as (_ & Hl & Hp & _).
  now rewrite lower_host_cons, Hp, Hl, IH.
Qed.

Lemma lower_host_label_tld t : forall b,
  all_chars is_ascii_lower t = true ->
  lower_host (b ++ "." ++ t) = lower_host b ++ "." ++ t.
Proof.
  intros b Ht. induction b as [| x b IH].
  - change ("" ++ "." ++ t) with (String "." t).
    rewrite lower_host_cons. simpl. now rewrite lower_host_lowercase.
  - change (String x b ++ "." ++ t) with (String x (b ++ "." ++ t)).
    rewrite !lower_host_cons. destruct (Ascii.eqb x "%"); [reflexivity |].
    now rewrite IH.
Qed.

Lemma lower_host_chars : forall s,
  all_chars host_char s = true -> all_chars host_char (lower_host s) = true.
Proof.
  induction s as [| x s IH]; [reflexivity |]. intros H.
  rewrite lower_host_cons. destruct (Ascii.eqb x "%"); [assumption |].
  simpl in *. apply andb_true_iff in H. destruct H as [Hx Hs].
  now rewrite (lower_char_host _ Hx), IH.
Qed.

Lemma split_head_prefix c s : exists rest, s = split_head c s ++ rest.
Proof.
  unfold split_head. destruct (partition c s) as [[h f] t] eqn:E.
  destruct (partition_spec _ _ _ _ _ E) as [_ H]. simpl.
  destruct f; [now exists (String c t) |].
  destruct H as [-> _]. exists "". now rewrite append_nil_r.
Qed.

Lemma split_head_no_sep c s : contains c (split_head c s) = false.
Proof.
  unfold split_head. destruct (partition c s) as [[h f] t] eqn:E.
  now destruct (partition_spec _ _ _ _ _ E).
Qed.

Lemma split_head_whole c s : contains c s = false -> split_head c s = s.
Proof. intros H. unfold split_head. now rewrite partition_absent. Qed.

Lemma split_head_label c b t :
  contains c b = false -> split_head c (b ++ String c t) = b.
Proof. intros H. unfold split_head. now rewrite partition_at. Qed.

Lemma split_last_label c b t :
  contains c t = false -> split_last c (b ++ String c t) = t.
Proof.
  intros H. unfold split_last, rpartition. now rewrite rsplit_last_at.
Qed.

Lemma host_chars_intro : forall s,
  all_chars netloc_char s = true ->
  contains "[" s = false -> contains "]" s = false ->
  contains ":" s = false -> contains "@" s = false ->
  all_chars host_char s = true.
Proof.
  induction s as [| x s IH]; simpl; [reflexivity |].
  intros H H1 H2 H3 H4. apply andb_true_iff in H. destruct H as [Hx Hs].
  apply orb_false_iff in H1, H2, H3, H4.
  destruct H1 as [E1 H1], H2 as [E2 H2], H3 as [E3 H3], H4 as [E4 H4].
  unfold host_char at 1. rewrite Hx, E1, E2, E3, E4. simpl. now apply IH.
Qed.

(** The hostname of a netloc without brackets is made of host
    characters and is stable under the hostname property's case
    folding. *)
Lemma hostname_of_plain_netloc nl h :
  all_chars netloc_char nl = true ->
  contains "[" nl = false -> contains "]" nl = false ->
  hostname_of_netloc nl = Some h ->
  all_chars host_char h = true /\ exists h0, h = lower_host h0.
Proof.
  intros Hnl Ho Hc. unfold hostname_of_netloc, _hostinfo.
  destruct (rpartition "@" nl) as [[u fa] hi] eqn:E1.
  destruct (rpartition_spec _ _ _ _ _ E1) as (Hat & pre & ->).
  rewrite contains_app in Ho, Hc. apply orb_false_iff in Ho, Hc.
  destruct Ho as [_ Ho], Hc as [_ Hc]. apply all_chars_suffix in Hnl.
  rewrite (partition_absent _ _ Ho).
  destruct (partition ":" hi) as [[h0 fc] prt] eqn:E2.
  destruct (partition_spec _ _ _ _ _ E2) as [Hcolon Hhi].
  assert (Hpre : exists rest, hi = h0 ++ rest).
  { destruct fc; [now exists (String ":" prt) |].
    destruct Hhi as [-> _]. exists "". now rewrite append_nil_r. }
  destruct Hpre as (rest & ->). clear Hhi.
  rewrite contains_app in Ho, Hc, Hat. apply orb_false_iff in Ho, Hc, Hat.
  destruct Ho as [Ho _], Hc as [Hc _], Hat as [Hat _].
  apply all_chars_prefix in Hnl. simpl.
  destruct (is_empty h0); [discriminate |].
  intros [= <-]. split; [| now exists h0].
  apply lower_host_chars. now apply host_chars_intro.
Qed.

(** The first label of such a hostname: host characters only, no dot,
    and itself stable under the case folding. *)
Lemma base_hostname_plain h h0 :
  all_chars host_char h = true -> h = lower_host h0 ->
  all_chars host_char (split_head "." h) = true
  /\ lower_host (split_head "." h) = split_head "." h.
Proof.
  intros Hh ->. split.
  - destruct (split_head_prefix "." (lower_host h0)) as (rest & E).
    rewrite E in Hh. now apply all_chars_prefix in Hh.
  - now rewrite <- lower_host_split_head, lower_host_idem.
Qed.

Lemma tld_value_lowercase t :
  is_tld_value t = true ->
  all_chars is_ascii_lower t = true /\ t <> "".
Proof.
  unfold is_tld_value. intros H. apply orb_true_iff in H.
  destruct H as [H | H].
  - unfold mem in H. apply existsb_exists in H.
    destruct H as (x & Hin & Heq). apply String.eqb_eq in Heq. subst x.
    simpl in Hin.
    repeat (destruct Hin as [<- | Hin]; [split; [reflexivity | discriminate] |]).
    destruct Hin.
  - apply andb_true_iff in H. destruct H as [Hlen Hall].
    split; [assumption |]. intros ->. discriminate.
Qed.

Lemma all_chars_lower_host t :
  all_chars is_ascii_lower t = true -> all_chars host_char t = true.
Proof.
  apply all_chars_impl. intros c Hc. now destruct (ascii_lower_facts _ Hc).
Qed.

Lemma is_empty_app_cons a c b : is_empty (a ++ String c b) = false.
Proof. now destruct a. Qed.

(** A netloc [base.tld] with a plain base label: its hostname is the
    netloc itself, and it has no port. *)
Lemma hostinfo_of_label_tld b t :
  all_chars host_char b = true -> all_chars is_ascii_lower t = true ->
  _hostinfo (b ++ "." ++ t) = (b ++ "." ++ t, None).
Proof.
  intros Hb Ht.
  assert (HN : all_chars host_char (b ++ "." ++ t) = true).
  { rewrite all_chars_app, Hb. simpl. now apply all_chars_lower_host. }
  assert (Hno : forall c, host_char c = false ->
                          contains c (b ++ "." ++ t) = false).
  { intros c Hc. now apply (all_chars_not_contains host_char). }
  unfold _hostinfo, rpartition.
  rewrite (rsplit_last_absent "@"), (partition_absent "["),
    (partition_absent ":"); auto.
Qed.

Lemma hostname_of_label_tld b t :
  all_chars host_char b = true -> lower_host b = b ->
  all_chars is_ascii_lower t = true ->
  hostname_of_netloc (b ++ "." ++ t) = Some (b ++ "." ++ t).
Proof.
  intros Hb Hl Ht. unfold hostname_of_netloc.
  rewrite (hostinfo_of_label_tld _ _ Hb Ht). simpl fst.
  change (b ++ "." ++ t) with (b ++ String "." t) at 1.
  rewrite is_empty_app_cons.
  now rewrite (lower_host_label_tld _ _ Ht), Hl.
Qed.

(** ** The text of a link, and parsing it back *)

Lemma urlunparse_shape r :
  is_empty (netloc r) = false ->
  urlunparse r =
  scheme_prefix (scheme r) ++ "//" ++ netloc r
  ++ path_text (path r) (params r)
  ++ query_suffix (query r) ++ fragment_suffix (fragment r).
Proof.
  intros Hn.
  unfold urlunparse, urlunsplit, path_text, scheme_prefix, query_suffix,
    fragment_suffix.
  rewrite Hn. cbn [negb orb].
  destruct (is_empty (params r)); cbn [negb];
    match goal with
    | |- context [negb (is_empty ?u) && negb (starts_with "/" ?u)] =>
        destruct (negb (is_empty u) && negb (starts_with "/" u))
    end;
    destruct (is_empty (scheme r)); cbn [negb];
    destruct (is_empty (query r)); cbn [negb];
    destruct (is_empty (fragment r)); cbn [negb];
    rewrite ?append_assoc, ?append_nil_r; reflexivity.
Qed.

Lemma path_text_is_tail pth prm : is_tail (path_text pth prm) = true.
Proof.
  unfold path_text.
  set (url := if is_empty prm then pth else pth ++ ";" ++ prm).
  destruct url as [| c url']; [reflexivity |].
  cbn [is_empty negb andb starts_with].
  destruct (Ascii.eqb_spec c "/") as [-> |]; reflexivity.
Qed.

Lemma link_tail_is_tail pth prm q f :
  is_tail (path_text pth prm ++ query_suffix q ++ fragment_suffix f) = true.
Proof.
  pose proof (path_text_is_tail pth prm) as H.
  destruct (path_text pth prm) as [| c t]; [| exact H].
  unfold query_suffix, fragment_suffix.
  destruct q; [destruct f |]; reflexivity.
Qed.

Lemma is_tail_filter t :
  is_tail t = true -> is_tail (filter_chars safe_char t) = true.
Proof.
  destruct t as [| c t]; [reflexivity |]. simpl. intros Hc.
  unfold safe_char. now rewrite (netloc_delim_safe _ Hc).
Qed.

Lemma is_tail_cases t :
  is_tail t = true ->
  t = "" \/ exists c t', t = String c t' /\ is_netloc_delim c = true.
Proof.
  destruct t as [| c t]; [now left |]. intros H. right. now exists c, t.
Qed.

Lemma scheme_is_safe sch :
  is_scheme sch = true -> all_chars safe_char (scheme_prefix sch) = true.
Proof.
  intros H. unfold is_scheme in H. apply andb_true_iff in H.
  destruct H as [H _]. unfold scheme_prefix.
  destruct (is_empty sch); [reflexivity |].
  rewrite all_chars_app. apply andb_true_iff. split; [| reflexivity].
  revert H. apply all_chars_impl. intros c Hc.
  now destruct (lower_scheme_char_facts _ Hc) as (_ & _ & _ & ?).
Qed.

Lemma lstrip_link sch rest :
  is_scheme sch = true ->
  lstrip is_c0_control_or_space (scheme_prefix sch ++ "//" ++ rest)
  = scheme_prefix sch ++ "//" ++ rest.
Proof.
  intros H. destruct sch as [| c sch]; [reflexivity |].
  unfold is_scheme in H. apply andb_true_iff in H. destruct H as [_ Hc].
  unfold scheme_prefix. simpl. now rewrite (alpha_not_stripped _ Hc).
Qed.

Lemma split_scheme_link sch rest :
  is_scheme sch = true ->
  split_scheme (scheme_prefix sch ++ "//" ++ rest) = (sch, "//" ++ rest).
Proof.
  intros H. destruct sch as [| c sch].
  - unfold scheme_prefix, split_scheme. simpl.
    destruct (partition ":" rest) as [[h f] t]. simpl.
    now rewrite andb_false_r.
  - unfold is_scheme in H. apply andb_true_iff in H. destruct H as [Hall Hc].
    unfold scheme_prefix. cbn [is_empty].
    rewrite append_assoc.
    change (":" ++ "//" ++ rest) with (String ":" ("//" ++ rest)).
    unfold split_scheme. rewrite partition_at.
    + rewrite Hc.
      assert (Hsc : all_chars is_scheme_char (String c sch) = true).
      { revert Hall. apply all_chars_impl. intros x Hx.
        now destruct (lower_scheme_char_facts _ Hx) as (_ & ? & _). }
      rewrite Hsc. cbn [andb]. f_equal. unfold lower.
      apply (map_chars_id _ lower_scheme_char); [| assumption].
      intros x Hx. now destruct (lower_scheme_char_facts _ Hx).
    + apply (all_chars_not_contains lower_scheme_char); auto.
Qed.

Section Reparse.

Variable chk : string -> option string.

(** Parsing the text [scheme://netloc tail]: the scheme and the netloc
    come back, for a netloc of host characters; the tail, without its
    tabs, CRs and LFs, is split into path, query and fragment. *)
Lemma urlsplit_link sch N T :
  is_scheme sch = true ->
  all_chars host_char N = true ->
  is_tail T = true ->
  urlsplit chk (scheme_prefix sch ++ "//" ++ N ++ T)
  = let '(pth, q, f) := split_fragment_query (filter_chars safe_char T) in
    Returns (sch, N, pth, q, f).
Proof.
  intros Hsch HN HT.
  pose (T' := filter_chars safe_char T).
  assert (Hfilter :
    filter_chars safe_char (scheme_prefix sch ++ "//" ++ N ++ T)
    = scheme_prefix sch ++ "//" ++ N ++ T').
  { rewrite !filter_chars_app.
    rewrite (filter_chars_id safe_char (scheme_prefix sch))
      by now apply scheme_is_safe.
    rewrite (filter_chars_id safe_char N).
    - reflexivity.
    - revert HN. apply all_chars_impl. intros c Hc.
      now destruct (host_char_facts _ Hc) as (_ & ? & _). }
  assert (Hspan : span_until is_netloc_delim (N ++ T') = (N, T')).
  { apply span_until_at.
    - revert HN. apply all_chars_impl. intros c Hc.
      now destruct (host_char_facts _ Hc) as (? & _).
    - apply is_tail_cases. now apply is_tail_filter. }
  assert (Hno : forall c, host_char c = false -> contains c N = false).
  { intros c Hc. now apply (all_chars_not_contains host_char). }
  unfold urlsplit. rewrite (lstrip_link _ _ Hsch).
  change (fun c => negb (is_unsafe_byte c)) with safe_char.
  rewrite Hfilter, (split_scheme_link _ _ Hsch).
  change (after_double_slash ("//" ++ N ++ T')) with (Some (N ++ T')).
  cbv beta iota. unfold _splitnetloc. rewrite Hspan.
  rewrite (Hno "["%char eq_refl), (Hno "]"%char eq_refl).
  reflexivity.
Qed.

Lemma urlparse_link sch N T :
  is_scheme sch = true ->
  all_chars host_char N = true ->
  is_tail T = true ->
  exists r,
    urlparse chk (scheme_prefix sch ++ "//" ++ N ++ T) = Returns r
    /\ scheme r = sch /\ netloc r = N.
Proof.
  intros Hsch HN HT.
  unfold urlparse. rewrite (urlsplit_link _ _ _ Hsch HN HT).
  destruct (split_fragment_query (filter_chars safe_char T))
    as [[pth q] f].
  destruct (mem sch uses_params && contains ";" pth).
  - destruct (_splitparams pth) as [pth' prm]. eexists. now repeat split.
  - eexists. now repeat split.
Qed.

End Reparse.

(** ** One generated link *)

Lemma link_for_text p b tld pth :
  link_for p b tld pth =
  scheme_prefix (scheme p) ++ "//" ++ (b ++ "." ++ tld)
  ++ path_text pth (params p)
  ++ query_suffix (query p) ++ fragment_suffix (fragment p).
Proof.
  unfold link_for. rewrite urlunparse_shape; [reflexivity |].
  apply is_empty_app_cons.
Qed.

(** A link built from a base URL whose netloc has no bracket parses
    back: same scheme, netloc and hostname [base.tld], no port. *)
Lemma link_for_reparse chk base_url p h tld pth :
  urlparse chk base_url = Returns p ->
  hostname p = Some h ->
  contains "[" (netloc p) = false ->
  is_tld_value tld = true ->
  exists r,
    urlparse chk (link_for p (split_head "." h) tld pth) = Returns r
    /\ scheme r = scheme p
    /\ netloc r = split_head "." h ++ "." ++ tld
    /\ hostname r = Some (split_head "." h ++ "." ++ tld)
    /\ port r = Returns None
    /\ split_last "." (split_head "." h ++ "." ++ tld) = tld
    /\ split_head "." (split_head "." h ++ "." ++ tld) = split_head "." h.
Proof.
  intros Hp Hh Ho Ht.
  destruct (urlparse_components _ _ _ Hp) as (Hsch & Hnl & Hbr).
  rewrite Ho in Hbr. symmetry in Hbr.
  destruct (hostname_of_plain_netloc _ _ Hnl Ho Hbr Hh) as (Hhc & h0 & Hh0).
  destruct (base_hostname_plain _ _ Hhc Hh0) as (Hb & Hstable).
  destruct (tld_value_lowercase _ Ht) as (Hlow & _).
  assert (HN : all_chars host_char (split_head "." h ++ "." ++ tld) = true).
  { rewrite all_chars_app, Hb. simpl. now apply all_chars_lower_host. }
  rewrite link_for_text.
  destruct (urlparse_link chk _ _ _ Hsch HN
              (link_tail_is_tail pth (params p) (query p) (fragment p)))
    as (r & Hr & Hs & Hn).
  exists r. repeat split; auto.
  - unfold hostname. rewrite Hn. now apply hostname_of_label_tld.
  - unfold port, port_of_netloc. rewrite Hn.
    now rewrite (hostinfo_of_label_tld _ _ Hb Hlow).
  - apply split_last_label.
    apply (all_chars_not_contains is_ascii_lower); auto.
  - apply split_head_label. apply split_head_no_sep.
Qed.

(** ** Ports *)

Lemma partition_tail_suffix c s h f t :
  partition c s = (h, f, t) -> exists pre, s = pre ++ t.
Proof.
  intros E. destruct (partition_spec _ _ _ _ _ E) as [_ H].
  destruct f.
  - exists (h ++ String c ""). now rewrite append_assoc.
  - destruct H as [-> ->]. exists h. now rewrite append_nil_r.
Qed.

Lemma last_char_app t : forall a,
  t <> "" -> last_char (a ++ t) = last_char t.
Proof.
  intros a Ht. induction a as [| x a IH]; [reflexivity |].
  simpl. destruct (a ++ t) eqn:E; [| exact IH].
  destruct a; simpl in E; [contradiction | discriminate].
Qed.

Lemma all_chars_last P : forall s c,
  all_chars P s = true -> last_char s = Some c -> P c = true.
Proof.
  induction s as [| x s IH]; intros c H Hl; [discriminate |].
  simpl in H. apply andb_true_iff in H. destruct H as [Hx Hs].
  simpl in Hl. destruct s; [now inversion Hl; subst | now apply IH].
Qed.

Lemma last_char_some : forall s, s <> "" -> exists c, last_char s = Some c.
Proof.
  induction s as [| x s IH]; intros H; [contradiction |].
  simpl. destruct s; [now exists x | apply IH; discriminate].
Qed.

(** The port text of a netloc, when there is one, is a non-empty end of
    the netloc. *)
Lemma hostinfo_port_suffix nl prt :
  snd (_hostinfo nl) = Some prt -> prt <> "" /\ exists pre, nl = pre ++ prt.
Proof.
  unfold _hostinfo.
  destruct (rpartition "@" nl) as [[u fa] hi] eqn:E1.
  destruct (rpartition_spec _ _ _ _ _ E1) as (_ & pre1 & ->).
  destruct (partition "[" hi) as [[bb fo] br] eqn:E2.
  destruct (partition_tail_suffix _ _ _ _ _ E2) as (pre2 & ->).
  destruct fo.
  - destruct (partition "]" br) as [[hn fc] p1] eqn:E3.
    destruct (partition_tail_suffix _ _ _ _ _ E3) as (pre3 & ->).
    destruct (partition ":" p1) as [[x1 f1] p2] eqn:E4.
    destruct (partition_tail_suffix _ _ _ _ _ E4) as (pre4 & ->).
    simpl. destruct p2 as [| c p2]; simpl; [discriminate |].
    intros [= <-]. split; [discriminate |].
    exists (pre1 ++ pre2 ++ pre3 ++ pre4). now rewrite !append_assoc.
  - destruct (partition ":" (pre2 ++ br)) as [[hn fc] p1] eqn:E3.
    destruct (partition_tail_suffix _ _ _ _ _ E3) as (pre3 & E).
    simpl. destruct p1 as [| c p1]; simpl; [discriminate |].
    intros [= <-]. split; [discriminate |].
    exists (pre1 ++ pre3). now rewrite E, !append_assoc.
Qed.

(** A netloc ending in a TLD value never carries a port number. *)
Lemma port_of_label_tld b tld n :
  is_tld_value tld = true ->
  port_of_netloc (b ++ "." ++ tld) <> Returns (Some n).
Proof.
  intros Ht. destruct (tld_value_lowercase _ Ht) as (Hlow & Hne).
  unfold port_of_netloc.
  destruct (snd (_hostinfo (b ++ "." ++ tld))) as [prt |] eqn:E;
    [| discriminate].
  destruct (hostinfo_port_suffix _ _ E) as (Hprt & pre & Hpre).
  destruct (all_chars is_ascii_digit prt) eqn:Hd;
    [| discriminate].
  exfalso.
  destruct (last_char_some _ Hne) as (c & Hc).
  assert (Hl : last_char prt = Some c).
  { rewrite <- (last_char_app prt pre Hprt), <- Hpre.
    change (b ++ "." ++ tld) with (b ++ (String "." "" ++ tld)).
    rewrite <- append_assoc. now rewrite last_char_app. }
  pose proof (all_chars_last _ _ _ Hd Hl) as Hdig.
  pose proof (all_chars_last _ _ _ Hlow Hc) as Hlc.
  destruct (ascii_lower_facts _ Hlc) as (_ & _ & _ & _ & Hnd). congruence.
Qed.

(* ================================================================== *)
(** * Round trip of a link through [urlparse] *)

Lemma all_chars_exclude (P : ascii -> bool) c : forall s,
  all_chars P s = true -> contains c s = false ->
  all_chars (fun x => P x && negb (Ascii.eqb x c)) s = true.
Proof.
  induction s as [| x s IH]; simpl; [reflexivity |].
  intros H Hc. apply andb_true_iff in H. destruct H as [Hx Hs].
  apply orb_false_iff in Hc. destruct Hc as [Hxc Hc].
  now rewrite Hx, Hxc, IH.
Qed.

Lemma all_chars_around P a c b :
  all_chars P (a ++ String c b) = true ->
  all_chars P a = true /\ all_chars P b = true.
Proof.
  rewrite all_chars_app. intros H. apply andb_true_iff in H.
  destruct H as [H1 H2]. split; [assumption |].
  change (String c b) with (String c "" ++ b) in H2.
  now apply all_chars_suffix in H2.
Qed.

Lemma split_fragment_query_spec url pth q f :
  all_chars safe_char url = true ->
  split_fragment_query url = (pth, q, f) ->
  all_chars path_char pth = true
  /\ all_chars query_char q = true
  /\ all_chars safe_char f = true.
Proof.
  intros Hsafe. unfold split_fragment_query.
  assert (Hfrag : exists u f0,
            (if contains "#" url
             then let '(u, _, f) := partition "#" url in (u, f)
             else (url, "")) = (u, f0)
            /\ all_chars query_char u = true
            /\ all_chars safe_char f0 = true).
  { destruct (contains "#" url) eqn:Hc.
    - destruct (partition "#" url) as [[u fd] f0] eqn:E.
      destruct (partition_spec _ _ _ _ _ E) as [Hu Hs].
      exists u, f0. split; [reflexivity |].
      assert (Hparts : all_chars safe_char u = true
                       /\ all_chars safe_char f0 = true).
      { destruct fd.
        - rewrite Hs in Hsafe. now apply all_chars_around in Hsafe.
        - destruct Hs as [<- ->]. auto. }
      destruct Hparts as [H1 H2]. split; [| assumption].
      now apply all_chars_exclude.
    - exists url, "". repeat split. now apply all_chars_exclude. }
  destruct Hfrag as (u & f0 & -> & Hu & Hf0).
  destruct (contains "?" u) eqn:Hc.
  - destruct (partition "?" u) as [[u2 fd] q0] eqn:E.
    destruct (partition_spec _ _ _ _ _ E) as [Hu2 Hs].
    intros [= <- <- <-].
    assert (Hparts : all_chars query_char u2 = true
                     /\ all_chars query_char q0 = true).
    { destruct fd.
      - rewrite Hs in Hu. now apply all_chars_around in Hu.
      - destruct Hs as [<- ->]. auto. }
    destruct Hparts as [H1 H2]. repeat split; auto.
    now apply all_chars_exclude.
  - intros [= <- <- <-]. repeat split; auto.
    now apply all_chars_exclude.
Qed.

Lemma all_chars_drop_last P : forall s,
  all_chars P s = true -> all_chars P (drop_last s) = true.
Proof.
  induction s as [| c s IH]; [reflexivity |].
  intros H. cbn [all_chars] in H. apply andb_true_iff in H.
  destruct H as [Hc Hs]. destruct s as [| a s']; [reflexivity |].
  change (drop_last (String c (String a s')))
    with (String c (drop_last (String a s'))).
  cbn [all_chars]. rewrite Hc. now apply IH.
Qed.

Lemma splitparams_spec pth pth' prm :
  _splitparams pth = (pth', prm) ->
  contains "/" prm = false
  /\ forall P, all_chars P pth = true ->
               all_chars P pth' = true /\ all_chars P prm = true.
Proof.
  unfold _splitparams. destruct (contains "/" pth) eqn:Hs.
  - destruct (rsplit_last "/" pth) as [[dir last] |] eqn:E.
    + destruct (rsplit_last_spec _ _ _ _ E) as [-> Hlast].
      destruct (partition ";" last) as [[seg fd] p0] eqn:E2.
      destruct (partition_spec _ _ _ _ _ E2) as [_ Hp].
      destruct fd; intros [= <- <-].
      * subst last. rewrite contains_app in Hlast.
        apply orb_false_iff in Hlast. destruct Hlast as [_ Hl].
        simpl in Hl. split; [assumption |]. intros P HP.
        rewrite all_chars_app in HP.
        apply andb_true_iff in HP. destruct HP as [H1 H2].
        change (String "/" (seg ++ String ";" p0))
          with (String "/" seg ++ String ";" p0) in H2.
        apply all_chars_around in H2. destruct H2 as [H2 H3].
        now rewrite all_chars_app, H1, H2, H3.
      * split; [reflexivity |]. intros P HP. now split.
    + intros [= <- <-]. split; [reflexivity |]. intros P HP. now split.
  - destruct (partition ";" pth) as [[seg fd] p0] eqn:E2.
    destruct (partition_spec _ _ _ _ _ E2) as [_ Hp].
    destruct fd; intros [= <- <-].
    + subst pth. rewrite contains_app in Hs.
      apply orb_false_iff in Hs. destruct Hs as [_ Hs]. simpl in Hs.
      split; [assumption |]. intros P HP.
      now apply all_chars_around in HP.
    + split; [assumption |]. intros P HP. split; [| assumption].
      now apply all_chars_drop_last.
Qed.

Section ParsedTail.

Variable chk : string -> option string.

Lemma urlsplit_tail_components u sch nl pth q f :
  urlsplit chk u = Returns (sch, nl, pth, q, f) ->
  all_chars path_char pth = true
  /\ all_chars query_char q = true
  /\ all_chars safe_char f = true.
Proof.
  unfold urlsplit.
  set (u1 := filter_chars _ (lstrip is_c0_control_or_space u)).
  assert (Hsafe : all_chars safe_char u1 = true) by apply filter_chars_all.
  destruct (split_scheme u1) as [sch0 rest] eqn:Hs.
  destruct (split_scheme_spec _ _ _ Hs) as (_ & pre & Hu1).
  rewrite Hu1 in Hsafe. apply all_chars_suffix in Hsafe.
  destruct (after_double_slash rest) as [after |] eqn:Ha.
  - apply after_double_slash_spec in Ha. subst rest.
    apply (all_chars_suffix _ "//") in Hsafe.
    destruct (_splitnetloc after) as [nl0 url0] eqn:Hn.
    unfold _splitnetloc in Hn.
    destruct (span_until_spec _ _ _ _ Hn) as (-> & _ & _).
    apply all_chars_suffix in Hsafe.
    destruct ((contains "[" nl0 && negb (contains "]" nl0))
              || (contains "]" nl0 && negb (contains "[" nl0)));
      [discriminate |].
    destruct (contains "[" nl0 && contains "]" nl0).
    + destruct (_check_bracketed_netloc chk nl0); [discriminate |].
      destruct (split_fragment_query url0) as [[p1 q1] f1] eqn:E.
      intros [= <- <- <- <- <-].
      now apply (split_fragment_query_spec url0).
    + destruct (split_fragment_query url0) as [[p1 q1] f1] eqn:E.
      intros [= <- <- <- <- <-].
      now apply (split_fragment_query_spec url0).
  - destruct (split_fragment_query rest) as [[p1 q1] f1] eqn:E.
    intros [= <- <- <- <- <-].
    now apply (split_fragment_query_spec rest).
Qed.

(** Path, params, query and fragment of a parsed URL: what each can
    hold, and params only for a scheme that uses them. *)
Lemma urlparse_tail_components u p :
  urlparse chk u = Returns p ->
  all_chars path_char (params p) = true
  /\ contains "/" (params p) = false
  /\ (is_empty (params p) = false -> mem (scheme p) uses_params = true)
  /\ all_chars query_char (query p) = true
  /\ all_chars safe_char (fragment p) = true.
Proof.
  unfold urlparse.
  destruct (urlsplit chk u) as [[[[[sch nl] pth] q] f] | e | ] eqn:E;
    try discriminate.
  destruct (urlsplit_tail_components _ _ _ _ _ _ E) as (Hp & Hq & Hf).
  destruct (mem sch uses_params) eqn:Hm; cbn [andb].
  - destruct (contains ";" pth).
    + destruct (_splitparams pth) as [pth' prm] eqn:E2.
      destruct (splitparams_spec _ _ _ E2) as [Hslash Hall].
      destruct (Hall _ Hp) as [_ Hprm].
      intros [= <-]. simpl. repeat split; auto.
    + intros [= <-]. simpl. repeat split; auto.
  - intros [= <-]. simpl. repeat split; auto. discriminate.
Qed.

End ParsedTail.

Lemma contains_filter P c : forall s,
  contains c s = false -> contains c (filter_chars P s) = false.
Proof.
  induction s as [| x s IH]; simpl; [reflexivity |].
  intros H. apply orb_false_iff in H. destruct H as [Hx Hs].
  destruct (P x); simpl; [rewrite Hx |]; auto.
Qed.


Lemma path_chars_elim s :
  all_chars path_char s = true ->
  all_chars safe_char s = true
  /\ contains "#" s = false /\ contains "?" s = false.
Proof.
  intros H. repeat split.
  - revert H. apply all_chars_impl. intros c Hc.
    unfold path_char, query_char in Hc.
    apply andb_true_iff in Hc. destruct Hc as [Hc _].
    apply andb_true_iff in Hc. now destruct Hc.
  - now apply (all_chars_not_contains path_char).
  - now apply (all_chars_not_contains path_char).
Qed.

Lemma query_chars_elim s :
  all_chars query_char s = true ->
  all_chars safe_char s = true /\ contains "#" s = false.
Proof.
  intros H. split.
  - revert H. apply all_chars_impl. intros c Hc.
    unfold query_char in Hc. apply andb_true_iff in Hc. now destruct Hc.
  - now apply (all_chars_not_contains query_char).
Qed.

(** Cutting [path ?query #fragment] apart again. *)
Lemma split_fragment_query_link PT q f :
  all_chars path_char PT = true ->
  all_chars query_char q = true ->
  split_fragment_query (PT ++ query_suffix q ++ fragment_suffix f)
  = (PT, q, f).
Proof.
  intros HPT Hq.
  destruct (path_chars_elim _ HPT) as (_ & Hh & Hqm).
  destruct (query_chars_elim _ Hq) as (_ & Hqh).
  assert (Hpq : contains "#" (PT ++ query_suffix q) = false).
  { rewrite contains_app, Hh. unfold query_suffix.
    destruct q; [reflexivity | exact Hqh]. }
  assert (Hquery :
    (if contains "?" (PT ++ query_suffix q)
     then let '(u, _, q0) := partition "?" (PT ++ query_suffix q) in (u, q0)
     else (PT ++ query_suffix q, "")) = (PT, q)).
  { unfold query_suffix. destruct q as [| c q].
    - cbn [is_empty]. now rewrite append_nil_r, Hqm.
    - cbn [is_empty].
      change ("?" ++ String c q) with (String "?" (String c q)).
      rewrite contains_app. cbn [contains]. rewrite Ascii.eqb_refl.
      cbn [orb]. rewrite orb_true_r. now rewrite partition_at. }
  unfold split_fragment_query, fragment_suffix. destruct f as [| c f].
  - cbn [is_empty]. rewrite append_nil_r, Hpq, Hquery. reflexivity.
  - cbn [is_empty].
    change ("#" ++ String c f) with (String "#" (String c f)).
    rewrite <- append_assoc, contains_app. cbn [contains].
    rewrite Ascii.eqb_refl. cbn [orb]. rewrite orb_true_r.
    rewrite (partition_at _ _ _ Hpq), Hquery. reflexivity.
Qed.

Lemma suffixes_are_safe q f :
  all_chars query_char q = true -> all_chars safe_char f = true ->
  all_chars safe_char (query_suffix q ++ fragment_suffix f) = true.
Proof.
  intros Hq Hf. destruct (query_chars_elim _ Hq) as (Hqs & _).
  rewrite all_chars_app. unfold query_suffix, fragment_suffix.
  destruct q, f; cbn [is_empty]; simpl in *; auto.
  - now rewrite Hqs.
  - now rewrite Hqs.
Qed.

Lemma rsplit_last_present c : forall s,
  contains c s = true -> exists h t, rsplit_last c s = Some (h, t).
Proof.
  intros s H. destruct (rsplit_last c s) as [[h t] |] eqn:E;
    [now exists h, t |].
  exfalso. revert E H.
  induction s as [| y s IH]; simpl; [discriminate |].
  destruct (rsplit_last c s) as [[? ?] |]; [discriminate |].
  destruct (Ascii.eqb y c); [discriminate |]. simpl. auto.
Qed.

(** [_splitparams] on [path;params] for a path that starts with a slash
    and has no semicolon, and params without a slash. *)
Lemma splitparams_link pth prm :
  starts_with "/" pth = true ->
  contains ";" pth = false ->
  contains "/" prm = false ->
  _splitparams (pth ++ ";" ++ prm) = (pth, prm).
Proof.
  intros Hs Hsemi Hprm.
  assert (Hslash : contains "/" pth = true).
  { destruct pth as [| c pth]; [discriminate |]. simpl in *.
    now rewrite Hs. }
  destruct (rsplit_last_present _ _ Hslash) as (dir & seg & E).
  destruct (rsplit_last_spec _ _ _ _ E) as [Hpth Hseg].
  assert (Hsemi' : contains ";" seg = false).
  { rewrite Hpth, contains_app in Hsemi.
    apply orb_false_iff in Hsemi. destruct Hsemi as [_ Hsemi].
    simpl in Hsemi. exact Hsemi. }
  unfold _splitparams.
  rewrite contains_app, Hslash. cbn [orb].
  change (";" ++ prm) with (String ";" prm).
  rewrite Hpth at 1. rewrite append_assoc.
  change (String "/" seg ++ String ";" prm)
    with (String "/" (seg ++ String ";" prm)).
  rewrite rsplit_last_at.
  - rewrite (partition_at _ _ _ Hsemi'). now rewrite Hpth.
  - rewrite contains_app, Hseg. simpl. exact Hprm.
Qed.

Section RoundTrip.

Variable chk : string -> option string.


(** The full round trip: for a path that starts with a slash and holds
    no [?], [#], [;], tab, CR or LF, parsing the link gives back exactly
    the components it was assembled from. *)
Lemma link_for_round_trip base_url p h tld pth :
  urlparse chk base_url = Returns p ->
  hostname p = Some h ->
  contains "[" (netloc p) = false ->
  is_tld_value tld = true ->
  starts_with "/" pth = true ->
  all_chars path_char pth = true ->
  contains ";" pth = false ->
  urlparse chk (link_for p (split_head "." h) tld pth)
  = Returns (_replace p (split_head "." h ++ "." ++ tld) pth).
Proof.
  intros Hp Hh Ho Ht Hslash Hpth Hsemi.
  destruct (urlparse_components _ _ _ Hp) as (Hsch & Hnl & Hbr).
  destruct (urlparse_tail_components _ _ _ Hp)
    as (Hprm & Hprmslash & Huses & Hquery & Hfrag).
  rewrite Ho in Hbr. symmetry in Hbr.
  destruct (hostname_of_plain_netloc _ _ Hnl Ho Hbr Hh) as (Hhc & h0 & Hh0).
  destruct (base_hostname_plain _ _ Hhc Hh0) as (Hb & _).
  destruct (tld_value_lowercase _ Ht) as (Hlow & _).
  assert (HN : all_chars host_char (split_head "." h ++ "." ++ tld) = true).
  { rewrite all_chars_app, Hb. simpl. now apply all_chars_lower_host. }
  set (PT := path_text pth (params p)).
  assert (HPTeq : PT = if is_empty (params p) then pth
                       else pth ++ ";" ++ params p).
  { unfold PT, path_text. destruct pth as [| c pth']; [discriminate |].
    simpl in Hslash. destruct (is_empty (params p)).
    - cbn [is_empty negb andb starts_with]. now rewrite Hslash.
    - change (String c pth' ++ ";" ++ params p)
        with (String c (pth' ++ ";" ++ params p)).
      cbn [is_empty negb andb starts_with]. now rewrite Hslash. }
  assert (HPT : all_chars path_char PT = true).
  { rewrite HPTeq. destruct (is_empty (params p)); [assumption |].
    rewrite !all_chars_app, Hpth, Hprm. reflexivity. }
  destruct (path_chars_elim _ HPT) as (HPTsafe & _ & _).
  rewrite link_for_text. unfold urlparse.
  rewrite (urlsplit_link chk _ _ _ Hsch HN
             (link_tail_is_tail pth (params p) (query p) (fragment p))).
  fold PT. rewrite filter_chars_app, (filter_chars_id _ _ HPTsafe).
  rewrite (filter_chars_id safe_char (query_suffix _ ++ _))
    by now apply suffixes_are_safe.
  rewrite (split_fragment_query_link _ _ _ HPT Hquery).
  rewrite HPTeq. destruct (is_empty (params p)) eqn:Hempty.
  - rewrite Hsemi, andb_false_r. unfold _replace.
    destruct (params p); [reflexivity | discriminate].
  - rewrite (Huses eq_refl), contains_app. cbn [andb].
    replace (contains ";" (";" ++ params p)) with true by reflexivity.
    rewrite orb_true_r.
    now rewrite (splitparams_link _ _ Hslash Hsemi Hprmslash).
Qed.

End RoundTrip.


(** The links printed by [main] are the generated links in some order. *)
Lemma randomize_and_generate_links_permutes chk base_url n pat w links w' :
  randomize_and_generate_links chk base_url n pat w = (Returns links, w') ->
  exists generated w1,
    generate_links chk base_url n pat w = (Returns generated, w1)
    /\ Permutation generated links.
Proof.
  intros H. unfold randomize_and_generate_links in H.
  apply bind_not_returns in H. destruct H as (generated & w1 & Hg & H).
  apply bind_not_returns in H. destruct H as (l' & w2 & Hs & H).
  exists generated, w1. split; [assumption |].
  unfold bind, logging_info, logging_log, ret in H. simpl in H.
  inversion H; subst. unfold Random.shuffle in Hs.
  pose proof (shuffle_from_permutation (List.length generated - 1) generated
                (gen w1)) as HP.
  destruct (Random.shuffle_from _ generated (gen w1)) as [l'' g].
  inversion Hs; subst. simpl in HP. now apply Permutation_sym.
Qed.

(** ** Formatted paths *)

Lemma digit_is_plain c :
  is_ascii_digit c = true -> plain_path_char c = true.
Proof. each_char c. Qed.

Lemma string_of_uint_digits d :
  all_chars is_ascii_digit (NilEmpty.string_of_uint d) = true.
Proof. induction d; simpl; auto. Qed.

Lemma str_of_int_digits i :
  (0 <= i)%Z -> all_chars is_ascii_digit (str_of_int i) = true.
Proof.
  intros Hi. unfold str_of_int. destruct i as [| q | q]; [reflexivity | | lia].
  unfold Z.to_int, NilZero.string_of_int, NilZero.string_of_uint.
  destruct (Pos.to_uint q) eqn:E; try apply string_of_uint_digits.
  reflexivity.
Qed.

Lemma plain_chars_elim s :
  all_chars plain_path_char s = true ->
  all_chars path_char s = true /\ contains ";" s = false.
Proof.
  intros H. split.
  - revert H. apply all_chars_impl. intros c Hc.
    unfold plain_path_char in Hc. apply andb_true_iff in Hc.
    now destruct Hc.
  - now apply (all_chars_not_contains plain_path_char).
Qed.

Lemma starts_with_app c a b :
  starts_with c a = true -> starts_with c (a ++ b) = true.
Proof. destruct a; [discriminate | trivial]. Qed.

(** The path made from [pre{}post] and a non-negative index. *)
Lemma formatted_path_plain pre post i :
  (0 <= i)%Z ->
  all_chars plain_path_char pre = true ->
  all_chars plain_path_char post = true ->
  all_chars path_char (pre ++ str_of_int i ++ post) = true
  /\ contains ";" (pre ++ str_of_int i ++ post) = false.
Proof.
  intros Hi Hpre Hpost. apply plain_chars_elim.
  rewrite !all_chars_app, Hpre, Hpost, andb_true_r. cbn [andb].
  apply (all_chars_impl is_ascii_digit); [apply digit_is_plain |].
  now apply str_of_int_digits.
Qed.


(** ** Characters of a formatted path *)






(** A first label and a TLD joined by a dot hold no colon when the label
    is made of host characters. *)
Lemma label_tld_no_colon b tld :
  all_chars host_char b = true -> is_tld_value tld = true ->
  contains ":" (b ++ "." ++ tld) = false.
Proof.
  intros Hb Ht. destruct (tld_value_lowercase _ Ht) as (Hlow & _).
  apply (all_chars_not_contains host_char); [reflexivity |].
  rewrite all_chars_app, Hb. simpl. now apply all_chars_lower_host.
Qed.

(* ================================================================== *)
(** * The specification, statement by statement *)

(** C1 (code defect).  A base URL without a hostname, such as the empty
    string or a bare [example.com], does not make [generate_links] fail
    with the "Invalid base URL" ValueError that names the input: the parse
    succeeds, the hostname is [None], and the call ends in an
    AttributeError whose message does not mention the input.  Nothing is
    returned, and [main] prints nothing. *)
Theorem C1_no_hostname_raises_AttributeError :
  forall chk num_links pat w,
    generate_links chk "" num_links pat w
    = (Raises (AttributeError "'NoneType' object has no attribute 'split'"), w)
    /\ generate_links chk "example.com" num_links pat w
       = (Raises (AttributeError "'NoneType' object has no attribute 'split'"),
          w)
    /\ main chk "" (Some num_links) (Some pat) w
       = (Raises (AttributeError "'NoneType' object has no attribute 'split'"),
          w).
Proof. intros chk num_links pat w. repeat split; reflexivity. Qed.




(** C3.  For a base URL that parses and has a hostname, a count of at
    least zero and a pattern made of literal text around one [{}],
    [generate_links] returns, and returns exactly [count] links; for a
    count of zero the result is the empty list. *)
Theorem C3_returns_exactly_count_links chk base_url count pre post p h w :
  urlparse chk base_url = Returns p ->
  hostname p = Some h ->
  (0 <= count)%Z ->
  brace_free pre = true -> brace_free post = true ->
  exists links w',
    generate_links chk base_url count (pre ++ "{}" ++ post) w
    = (Returns links, w')
    /\ Z.of_nat (List.length links) = count
    /\ (count = 0%Z -> links = []).
Proof.
  intros Hp Hh Hn Hpre Hpost.
  destruct (links_loop_returns p (split_head "." h) (pre ++ "{}" ++ post)
              (py_range 1 (count + 1)) [] w) as (links & w' & Hl).
  { intros i _. eexists. now apply format_single. }
  exists links, (generated_log w' (List.length links) base_url).
  rewrite (generate_links_unfold _ _ _ _ _ _ _ Hp Hh), Hl.
  apply links_loop_inv in Hl. destruct Hl as (news & -> & HF & _).
  simpl. apply Forall2_length in HF. rewrite py_range_length in HF.
  repeat split.
  - lia.
  - intros ->. destruct news; [reflexivity | discriminate].
Qed.

Lemma C3_returns_exactly_count_links_witness :
  exists links w',
    generate_links loopback_only "https://example.com" 3 "/p{}" sample_world
    = (Returns links, w')
    /\ Z.of_nat (List.length links) = 3%Z
    /\ (3%Z = 0%Z -> links = []).
Proof.
  apply (C3_returns_exactly_count_links loopback_only "https://example.com" 3
           "/p" ""
           {| scheme := "https"; netloc := "example.com"; path := "";
              params := ""; query := ""; fragment := "" |}
           "example.com" sample_world);
    [reflexivity | reflexivity | lia | reflexivity | reflexivity].
Defined.

(** C4.  [random.shuffle] returns a permutation of its input: same
    elements with the same multiplicities, same length; the empty list
    and a one-element list come back unchanged.  The same holds for what
    [randomize_and_generate_links] does to the generated links. *)
Theorem C4_shuffle_is_permutation :
  (forall (l : list string) (w : world),
     exists l' w',
       Random.shuffle l w = (Returns l', w')
       /\ Permutation l l'
       /\ List.length l' = List.length l
       /\ (forall x, count_occ string_dec l' x = count_occ string_dec l x)
       /\ (forall x, In x l <-> In x l'))
  /\ (forall w, fst (Random.shuffle (@nil string) w) = Returns [])
  /\ (forall (x : string) w, fst (Random.shuffle [x] w) = Returns [x]).
Proof.
  repeat split; try reflexivity.
  intros l w. unfold Random.shuffle.
  pose proof (shuffle_from_permutation (List.length l - 1) l (gen w)) as HP.
  destruct (Random.shuffle_from (List.length l - 1) l (gen w)) as [l' g].
  simpl in HP. apply Permutation_sym in HP.
  exists l', {| gen := g; log := log w |}. repeat split.
  - exact HP.
  - symmetry. now apply Permutation_length.
  - intros x. symmetry. revert x.
    now apply (Permutation_count_occ string_dec).
  - now apply Permutation_in.
  - apply Permutation_in. now apply Permutation_sym.
Qed.

(** C5, as stated, fails.  With the pattern [p{}] the first link is
    [https://example.ry/p1], whose path is [/p1] and not [p1]:
    [urlunparse] puts a slash before a path that lacks one.  With the
    pattern [/search?page={}] the first link is
    [https://example.ry/search?page=1?q=1], whose path is [/search]: what
    follows the [?] of the formatted text is read as query. *)
Lemma C5_counterexample :
  (fst (generate_links loopback_only "https://example.com" 1 "p{}"
          sample_world)
   = Returns ["https://example.ry/p1"]
   /\ Format.format "p{}" 1 = Returns "p1"
   /\ exists r, urlparse loopback_only "https://example.ry/p1" = Returns r
                /\ path r = "/p1")
  /\ (fst (generate_links loopback_only "https://example.com/?q=1" 1
             "/search?page={}" sample_world)
      = Returns ["https://example.ry/search?page=1?q=1"]
      /\ Format.format "/search?page={}" 1 = Returns "/search?page=1"
      /\ exists r,
           urlparse loopback_only "https://example.ry/search?page=1?q=1"
           = Returns r
           /\ path r = "/search").
Proof.
  split; (split; [vm_compute; reflexivity |]);
    (split; [vm_compute; reflexivity |]);
    eexists; split; reflexivity.
Qed.

(** C5 (amended).  For a base URL that parses with a hostname and whose
    netloc has no bracket, a count of at least zero and a pattern
    [pre{}post] in which [pre] starts with a slash and [pre] and [post]
    hold no brace and none of [?], [#], [;], tab, CR, LF:
    [generate_links] returns [count] links, and the link at position [k]
    (from 0) parses to a URL whose path is [pre ++ str(k + 1) ++ post]. *)
Theorem C5_ith_link_has_ith_path chk base_url count pre post p h w :
  urlparse chk base_url = Returns p ->
  hostname p = Some h ->
  contains "[" (netloc p) = false ->
  (0 <= count)%Z ->
  brace_free pre = true -> brace_free post = true ->
  starts_with "/" pre = true ->
  all_chars plain_path_char pre = true ->
  all_chars plain_path_char post = true ->
  exists links w',
    generate_links chk base_url count (pre ++ "{}" ++ post) w
    = (Returns links, w')
    /\ List.length links = Z.to_nat count
    /\ forall k, k < Z.to_nat count ->
         exists link r,
           nth_error links k = Some link
           /\ urlparse chk link = Returns r
           /\ path r = pre ++ str_of_int (Z.of_nat k + 1) ++ post.
Proof.
  intros Hp Hh Ho Hn Hpre Hpost Hslash Hpre' Hpost'.
  destruct (links_loop_returns p (split_head "." h) (pre ++ "{}" ++ post)
              (py_range 1 (count + 1)) [] w) as (links & w' & Hl).
  { intros i _. eexists. now apply format_single. }
  exists links, (generated_log w' (List.length links) base_url).
  rewrite (generate_links_unfold _ _ _ _ _ _ _ Hp Hh), Hl.
  apply links_loop_inv in Hl. destruct Hl as (news & -> & HF & _).
  simpl. split; [reflexivity | split].
  - rewrite <- (Forall2_length HF), py_range_length. f_equal. lia.
  - intros k Hk.
    assert (Hk' : k < Z.to_nat (count + 1 - 1)) by lia.
    pose proof (py_range_nth 1 (count + 1) k Hk') as Hidx.
    destruct (Forall2_nth_error _ _ _ HF _ _ Hidx)
      as (link & Hlink & pth & tld & Hfmt & Hv & ->).
    rewrite (format_single _ _ _ Hpre Hpost) in Hfmt.
    replace (1 + Z.of_nat k)%Z with (Z.of_nat k + 1)%Z in Hfmt by lia.
    assert (Hpth : pth = pre ++ str_of_int (Z.of_nat k + 1) ++ post)
      by congruence.
    subst pth.
    destruct (formatted_path_plain pre post (Z.of_nat k + 1))
      as (Hchars & Hsemi); [lia | assumption | assumption |].
    exists (link_for p (split_head "." h) tld
              (pre ++ str_of_int (Z.of_nat k + 1) ++ post)),
           (_replace p (split_head "." h ++ "." ++ tld)
              (pre ++ str_of_int (Z.of_nat k + 1) ++ post)).
    split; [exact Hlink | split; [| reflexivity]].
    apply (link_for_round_trip chk base_url); auto.
    now apply starts_with_app.
Qed.

Lemma C5_ith_link_has_ith_path_witness :
  exists links w',
    generate_links loopback_only "https://example.com/x?q=1" 3 "/p{}"
      sample_world = (Returns links, w')
    /\ List.length links = 3
    /\ forall k, k < 3 ->
         exists link r,
           nth_error links k = Some link
           /\ urlparse loopback_only link = Returns r
           /\ path r = "/p" ++ str_of_int (Z.of_nat k + 1) ++ "".
Proof.
  apply (C5_ith_link_has_ith_path loopback_only "https://example.com/x?q=1"
           3 "/p" ""
           {| scheme := "https"; netloc := "example.com"; path := "/x";
              params := ""; query := "q=1"; fragment := "" |}
           "example.com" sample_world);
    [reflexivity | reflexivity | reflexivity | lia | reflexivity
     | reflexivity | reflexivity | reflexivity | reflexivity].
Defined.

(** C6, as stated, fails: the base URL [http://[::1]/] parses with the
    hostname [::1], which has no dot and is the base hostname; the links
    are [http://::1.ry/page1] and [http://::1.ta/page2], and each of them
    parses to a URL without a hostname. *)
Lemma C6_counterexample :
  (exists p, urlparse loopback_only "http://[::1]/" = Returns p
             /\ hostname p = Some "::1"
             /\ split_head "." "::1" = "::1")
  /\ fst (generate_links loopback_only "http://[::1]/" 2 "/page{}"
            sample_world)
     = Returns ["http://::1.ry/page1"; "http://::1.ta/page2"]
  /\ (exists r, urlparse loopback_only "http://::1.ry/page1" = Returns r
                /\ hostname r = None)
  /\ (exists r, urlparse loopback_only "http://::1.ta/page2" = Returns r
                /\ hostname r = None).
Proof.
  split; [eexists; repeat split; reflexivity |].
  split; [vm_compute; reflexivity |].
  split; eexists; split; reflexivity.
Qed.

(** C6 (amended).  For a base URL that parses with a hostname and whose
    netloc has no bracket (its host is not an IP literal): the base
    hostname [generate_links] works with is the text of the parsed
    hostname before its first dot (all of it when there is no dot), and
    every returned link parses to a URL with a hostname, made of that base
    hostname, a dot and a TLD value, whose first dot-delimited label is
    the base hostname. *)
Theorem C6_base_hostname_is_first_label
    chk base_url num_links pat w links w' p h :
  generate_links chk base_url num_links pat w = (Returns links, w') ->
  urlparse chk base_url = Returns p ->
  hostname p = Some h ->
  contains "[" (netloc p) = false ->
  contains "." (split_head "." h) = false
  /\ (exists rest, h = split_head "." h ++ rest
                   /\ (rest = "" \/ starts_with "." rest = true))
  /\ (contains "." h = false -> split_head "." h = h)
  /\ forall link, In link links ->
       exists r h' tld,
         urlparse chk link = Returns r
         /\ hostname r = Some h'
         /\ split_head "." h' = split_head "." h
         /\ h' = split_head "." h ++ "." ++ tld
         /\ is_tld_value tld = true.
Proof.
  intros H Hp0 Hh0 Ho.
  destruct (generate_links_inv _ _ _ _ _ _ _ H) as (p' & h' & Hp & Hh & HF).
  assert (p' = p) by congruence. subst p'.
  assert (h' = h) by congruence. subst h'.
  split; [apply split_head_no_sep | split; [| split]].
  - unfold split_head.
    destruct (partition "." h) as [[b f] t] eqn:E.
    destruct (partition_spec _ _ _ _ _ E) as [_ Hs]. simpl.
    destruct f.
    + exists (String "." t). split; [assumption | now right].
    + destruct Hs as [-> _]. exists "". rewrite append_nil_r. auto.
  - apply split_head_whole.
  - intros link Hin.
    destruct (Forall2_In_r _ _ _ HF link Hin)
      as (i & _ & pth & tld & Hfmt & Hv & ->).
    destruct (link_for_reparse chk _ _ _ _ pth Hp Hh Ho Hv)
      as (r & Hr & _ & _ & Hh' & _ & _ & Hfirst).
    exists r, (split_head "." h ++ "." ++ tld), tld.
    repeat split; assumption.
Qed.

Lemma C6_base_hostname_is_first_label_witness :
  contains "." (split_head "." "www.example.com") = false
  /\ (exists rest,
        "www.example.com" = split_head "." "www.example.com" ++ rest
        /\ (rest = "" \/ starts_with "." rest = true))
  /\ (contains "." "www.example.com" = false ->
      split_head "." "www.example.com" = "www.example.com")
  /\ (exists r h' tld,
        urlparse loopback_only "https://www.ry/page1" = Returns r
        /\ hostname r = Some h'
        /\ split_head "." h' = split_head "." "www.example.com"
        /\ h' = split_head "." "www.example.com" ++ "." ++ tld
        /\ is_tld_value tld = true)
  /\ (exists r h' tld,
        urlparse loopback_only "https://www.ta/page2" = Returns r
        /\ hostname r = Some h'
        /\ split_head "." h' = split_head "." "www.example.com"
        /\ h' = split_head "." "www.example.com" ++ "." ++ tld
        /\ is_tld_value tld = true).
Proof.
  assert (Hall :
    generate_links loopback_only "https://www.example.com:8080/x" 2
      "/page{}" sample_world
    = (Returns ["https://www.ry/page1"; "https://www.ta/page2"],
       snd (generate_links loopback_only "https://www.example.com:8080/x" 2
              "/page{}" sample_world))) by (vm_compute; reflexivity).
  pose proof (C6_base_hostname_is_first_label _ _ _ _ _ _ _
                {| scheme := "https"; netloc := "www.example.com:8080";
                   path := "/x"; params := ""; query := ""; fragment := "" |}
                "www.example.com" Hall eq_refl eq_refl eq_refl)
    as (H1 & H2 & H3 & H4).
  split; [exact H1 | split; [exact H2 | split; [exact H3 |]]].
  split; apply H4; simpl; auto.
Defined.

Lemma is_tld_value_selector t :
  is_tld_value t = true -> selector_value t.
Proof.
  unfold is_tld_value, selector_value. intros H.
  apply orb_true_iff in H. destruct H as [H | H].
  - left. unfold mem in H. apply existsb_exists in H.
    destruct H as (x & Hin & Heq). apply String.eqb_eq in Heq. now subst x.
  - right. apply andb_true_iff in H. destruct H as [Hlen Hall].
    split; [| assumption]. apply orb_true_iff in Hlen.
    destruct Hlen as [Hl | Hl]; apply Nat.eqb_eq in Hl; auto.
Qed.

(** C7, as stated, fails: for the base URL [http://[::1]/] the link is
    [http://::1.ry/page1]; it parses, but to a URL without a hostname. *)
Lemma C7_counterexample :
  fst (generate_links loopback_only "http://[::1]/" 1 "/page{}" sample_world)
  = Returns ["http://::1.ry/page1"]
  /\ exists r, urlparse loopback_only "http://::1.ry/page1" = Returns r
               /\ hostname r = None.
Proof. split; [vm_compute; reflexivity |]. eexists. split; reflexivity. Qed.

(** C7 (amended).  The TLD selector with the default candidates always
    returns, and returns a member of the 8-item default list or a string
    of two or three lowercase ASCII letters.  For a base URL whose netloc
    has no bracket (its host is not an IP literal), every link returned by
    [generate_links] parses to a URL with a hostname whose last
    dot-delimited label is such a value. *)
Theorem C7_tld_values_and_link_hostnames :
  (forall w, exists tld w',
     generate_random_tld None w = (Returns tld, w') /\ selector_value tld)
  /\ (forall chk base_url num_links pat w links w' p,
        generate_links chk base_url num_links pat w = (Returns links, w') ->
        urlparse chk base_url = Returns p ->
        contains "[" (netloc p) = false ->
        forall link, In link links ->
          exists r h',
            urlparse chk link = Returns r
            /\ hostname r = Some h'
            /\ selector_value (split_last "." h')).
Proof.
  split.
  - intros w. destruct (generate_random_tld_returns w) as (t & w' & E & Hv & _).
    exists t, w'. split; [assumption | now apply is_tld_value_selector].
  - intros chk base_url num_links pat w links w' p0 H Hp0 Ho link Hin.
    destruct (generate_links_inv _ _ _ _ _ _ _ H) as (p & h & Hp & Hh & HF).
    assert (p0 = p) by congruence. subst p0.
    destruct (Forall2_In_r _ _ _ HF link Hin)
      as (i & _ & pth & tld & Hfmt & Hv & ->).
    destruct (link_for_reparse chk _ _ _ _ pth Hp Hh Ho Hv)
      as (r & Hr & _ & _ & Hh' & _ & Hlast & _).
    exists r, (split_head "." h ++ "." ++ tld). repeat split; auto.
    rewrite Hlast. now apply is_tld_value_selector.
Qed.

Lemma C7_tld_values_and_link_hostnames_witness :
  (exists r h',
     urlparse loopback_only "https://www.ry/page1" = Returns r
     /\ hostname r = Some h'
     /\ selector_value (split_last "." h'))
  /\ (exists r h',
        urlparse loopback_only "https://www.ta/page2" = Returns r
        /\ hostname r = Some h'
        /\ selector_value (split_last "." h')).
Proof.
  destruct C7_tld_values_and_link_hostnames as [_ H].
  assert (Hall : forall link,
            In link ["https://www.ry/page1"; "https://www.ta/page2"] ->
            exists r h',
              urlparse loopback_only link = Returns r
              /\ hostname r = Some h'
              /\ selector_value (split_last "." h')).
  { apply (H loopback_only "https://www.example.com:8080/x" 2%Z "/page{}"
             sample_world
             ["https://www.ry/page1"; "https://www.ta/page2"]
             (generated_log
                {| gen := {| tape := fun n => 7 * n + 3; pos := 8 |};
                   log := [] |}
                2 "https://www.example.com:8080/x")
             {| scheme := "https"; netloc := "www.example.com:8080";
                path := "/x"; params := ""; query := ""; fragment := "" |});
      vm_compute; reflexivity. }
  split; apply Hall; simpl; auto.
Defined.




(** C9.  For a base URL that parses and has a hostname, a negative
    [num_links] is not rejected: whatever the pattern, [generate_links]
    returns the empty list (and logs that 0 links were generated). *)
Theorem C9_negative_count_gives_empty_list chk base_url num_links pat p h w :
  urlparse chk base_url = Returns p ->
  hostname p = Some h ->
  (num_links < 0)%Z ->
  generate_links chk base_url num_links pat w
  = (Returns [], generated_log w 0 base_url).
Proof.
  intros Hp Hh Hn.
  rewrite (generate_links_unfold _ _ _ _ _ _ _ Hp Hh).
  rewrite py_range_nonpositive by lia. reflexivity.
Qed.

Lemma C9_negative_count_gives_empty_list_witness :
  generate_links loopback_only "https://example.com" (-3) "{}{}" sample_world
  = (Returns [], generated_log sample_world 0 "https://example.com").
Proof.
  apply (C9_negative_count_gives_empty_list loopback_only
           "https://example.com" (-3) "{}{}"
           {| scheme := "https"; netloc := "example.com"; path := "";
              params := ""; query := ""; fragment := "" |}
           "example.com" sample_world);
    [reflexivity | reflexivity | lia].
Defined.

(** C10, as stated, fails: the base URL [http://[::1]:8080/] parses with
    the port 8080 and the hostname [::1]; the link is
    [http://::1.ry/page1], and asking the parsed link for its port raises
    ValueError: the text after the last colon of its netloc is read as a
    port. *)
Lemma C10_counterexample :
  (exists p, urlparse loopback_only "http://[::1]:8080/" = Returns p
             /\ hostname p = Some "::1"
             /\ port p = Returns (Some 8080%Z))
  /\ fst (generate_links loopback_only "http://[::1]:8080/" 1 "/page{}"
            sample_world)
     = Returns ["http://::1.ry/page1"]
  /\ exists r,
       urlparse loopback_only "http://::1.ry/page1" = Returns r
       /\ netloc r = "::1.ry"
       /\ port r = Raises (ValueError
            "Port could not be cast to integer value as ':1.ry'").
Proof.
  split; [eexists; repeat split; reflexivity |].
  split; [vm_compute; reflexivity |].
  eexists; repeat split; reflexivity.
Qed.

(** C10 (amended).  For a base URL that parses with a hostname and whose
    netloc has no bracket (its host is not an IP literal), whatever port
    it names: every link returned by [generate_links] parses to a URL
    whose netloc is the base hostname, a dot and a TLD value, without any
    colon, and whose port is [None]. *)
Theorem C10_links_have_no_port chk base_url num_links pat w links w' p h :
  generate_links chk base_url num_links pat w = (Returns links, w') ->
  urlparse chk base_url = Returns p ->
  hostname p = Some h ->
  contains "[" (netloc p) = false ->
  forall link, In link links ->
    exists r tld,
      urlparse chk link = Returns r
      /\ netloc r = split_head "." h ++ "." ++ tld
      /\ is_tld_value tld = true
      /\ contains ":" (netloc r) = false
      /\ port r = Returns None.
Proof.
  intros H Hp0 Hh0 Ho link Hin.
  destruct (generate_links_inv _ _ _ _ _ _ _ H) as (p' & h' & Hp & Hh & HF).
  assert (p' = p) by congruence. subst p'.
  assert (h' = h) by congruence. subst h'.
  destruct (Forall2_In_r _ _ _ HF link Hin)
    as (i & _ & pth & tld & Hfmt & Hv & ->).
  destruct (link_for_reparse chk _ _ _ _ pth Hp Hh Ho Hv)
    as (r & Hr & _ & Hn & _ & Hport & _).
  exists r, tld. repeat split; try assumption.
  rewrite Hn. apply label_tld_no_colon; [| assumption].
  destruct (urlparse_components _ _ _ Hp) as (_ & Hnl & Hbr).
  rewrite Ho in Hbr. symmetry in Hbr.
  destruct (hostname_of_plain_netloc _ _ Hnl Ho Hbr Hh) as (Hhc & h0 & Hh0').
  now destruct (base_hostname_plain _ _ Hhc Hh0').
Qed.

Lemma C10_links_have_no_port_witness :
  (exists r tld,
     urlparse loopback_only "https://localhost.ry/page1" = Returns r
     /\ netloc r = split_head "." "localhost" ++ "." ++ tld
     /\ is_tld_value tld = true
     /\ contains ":" (netloc r) = false
     /\ port r = Returns None)
  /\ (exists r tld,
        urlparse loopback_only "https://localhost.ta/page2" = Returns r
        /\ netloc r = split_head "." "localhost" ++ "." ++ tld
        /\ is_tld_value tld = true
        /\ contains ":" (netloc r) = false
        /\ port r = Returns None).
Proof.
  assert (Hall :
    generate_links loopback_only "https://localhost:8080/" 2 "/page{}"
      sample_world
    = (Returns ["https://localhost.ry/page1"; "https://localhost.ta/page2"],
       snd (generate_links loopback_only "https://localhost:8080/" 2
              "/page{}" sample_world))) by (vm_compute; reflexivity).
  pose proof (C10_links_have_no_port _ _ _ _ _ _ _
                {| scheme := "https"; netloc := "localhost:8080";
                   path := "/"; params := ""; query := ""; fragment := "" |}
                "localhost" Hall eq_refl eq_refl eq_refl) as H.
  split; apply H; simpl; auto.
Defined.

(* ================================================================== *)
(** * Further properties of the program *)

(** ** Errors of [generate_links] *)

Lemma urlparse_raises_ValueError chk u e :
  urlparse chk u = Raises e -> exists msg, e = ValueError msg.
Proof.
  unfold urlparse, urlsplit.
  destruct (split_scheme _) as [sch rest].
  destruct (after_double_slash rest) as [after |].
  - destruct (_splitnetloc after) as [nl url0].
    destruct ((contains "[" nl && negb (contains "]" nl))
              || (contains "]" nl && negb (contains "[" nl))).
    + intros [= <-]. now eexists.
    + destruct (contains "[" nl && contains "]" nl).
      * destruct (_check_bracketed_netloc chk nl) as [msg |].
        -- intros [= <-]. now eexists.
        -- destruct (split_fragment_query url0) as [[p1 q1] f1].
           destruct (mem sch uses_params && contains ";" p1);
             [destruct (_splitparams p1) |]; discriminate.
      * destruct (split_fragment_query url0) as [[p1 q1] f1].
        destruct (mem sch uses_params && contains ";" p1);
          [destruct (_splitparams p1) |]; discriminate.
  - destruct (split_fragment_query rest) as [[p1 q1] f1].
    destruct (mem sch uses_params && contains ";" p1);
      [destruct (_splitparams p1) |]; discriminate.
Qed.

(** X1.  When [urlparse] rejects the base URL, whatever its complaint,
    [generate_links] raises ValueError "Invalid base URL: <base_url>",
    with the base URL as given, after logging one ERROR record with the
    same text; no random number is drawn. *)
Theorem X1_rejected_base_url_is_named chk base_url num_links pat e w :
  urlparse chk base_url = Raises e ->
  generate_links chk base_url num_links pat w
  = (Raises (ValueError ("Invalid base URL: " ++ base_url)),
     {| gen := gen w;
        log := (log w ++ [(ERROR, ("Invalid base URL: " ++ base_url)%string)])%list |}).
Proof.
  intros He. destruct (urlparse_raises_ValueError _ _ _ He) as (msg & ->).
  now apply generate_links_unparseable with (msg := msg).
Qed.

Lemma X1_rejected_base_url_is_named_witness :
  generate_links loopback_only "http://[::1/x" 3 "/page{}" sample_world
  = (Raises (ValueError "Invalid base URL: http://[::1/x"),
     {| gen := gen sample_world;
        log := [(ERROR, "Invalid base URL: http://[::1/x")] |}).
Proof.
  apply (X1_rejected_base_url_is_named loopback_only "http://[::1/x" 3
           "/page{}" (ValueError "Invalid IPv6 URL") sample_world).
  reflexivity.
Defined.

(** X2.  A successful [generate_links] leaves exactly one new log record:
    the INFO record "Generated <n> links based on <base_url>", where [n]
    is the number of links returned.  The DEBUG records of the TLD
    selector are below the configured level and never appear. *)
Theorem X2_success_logs_the_count chk base_url num_links pat w links w' :
  generate_links chk base_url num_links pat w = (Returns links, w') ->
  log w' = (log w ++ [(INFO, ("Generated "
                              ++ str_of_int (Z.of_nat (List.length links))
                              ++ " links based on " ++ base_url)%string)])%list.
Proof.
  intros H. destruct (generate_links_inv _ _ _ _ _ _ _ H) as (p & h & Hp & Hh & _).
  rewrite (generate_links_unfold _ _ _ _ _ _ _ Hp Hh) in H.
  destruct (links_loop _ _ _ _ _ w) as [[l | e | ] w1] eqn:Hl;
    try discriminate.
  inversion H; subst. apply links_loop_inv in Hl.
  destruct Hl as (news & _ & _ & Hlog). simpl. now rewrite Hlog.
Qed.

Lemma X2_success_logs_the_count_witness :
  log (snd (generate_links loopback_only "https://example.com:8080" 2
              "/page{}" sample_world))
  = [(INFO, "Generated 2 links based on https://example.com:8080")].
Proof.
  apply (X2_success_logs_the_count loopback_only "https://example.com:8080" 2
           "/page{}" sample_world
           ["https://example.ry/page1"; "https://example.ta/page2"]).
  vm_compute. reflexivity.
Defined.

(** X3.  The [try] of [generate_links] covers only [urlparse]: when the
    base URL has a hostname, at least one link is requested and
    [str.format] raises on the pattern, that very exception leaves
    [generate_links], before any random draw and without any log record. *)
Theorem X3_format_error_propagates chk base_url num_links pat p h e w :
  urlparse chk base_url = Returns p ->
  hostname p = Some h ->
  (1 <= num_links)%Z ->
  Format.format pat 1 = Raises e ->
  generate_links chk base_url num_links pat w = (Raises e, w).
Proof.
  intros Hp Hh Hn He.
  rewrite (generate_links_unfold _ _ _ _ _ _ _ Hp Hh).
  destruct (py_range_head _ Hn) as (idx & ->).
  now rewrite (links_loop_raises _ _ _ _ _ _ _ _ He).
Qed.

Lemma X3_format_error_propagates_witness :
  generate_links loopback_only "https://example.com" 3 "/page}" sample_world
  = (Raises (ValueError "Single '}' encountered in format string"),
     sample_world).
Proof.
  apply (X3_format_error_propagates loopback_only "https://example.com" 3
           "/page}"
           {| scheme := "https"; netloc := "example.com"; path := "";
              params := ""; query := ""; fragment := "" |}
           "example.com");
    [reflexivity | reflexivity | lia | reflexivity].
Defined.

Lemma contains_lstrip P c : forall s,
  contains c s = false -> contains c (lstrip P s) = false.
Proof.
  induction s as [| x s IH]; [reflexivity |]. intros H. simpl.
  destruct (P x); [| exact H].
  simpl in H. apply orb_false_iff in H. now apply IH.
Qed.

Lemma hostname_of_empty_netloc : hostname_of_netloc "" = None.
Proof. reflexivity. Qed.

(** A URL without any slash has no network location. *)
Lemma urlparse_without_slash chk u :
  contains "/" u = false ->
  exists p, urlparse chk u = Returns p /\ netloc p = "".
Proof.
  intros Hu. unfold urlparse, urlsplit.
  set (u1 := filter_chars _ (lstrip is_c0_control_or_space u)).
  assert (H1 : contains "/" u1 = false).
  { unfold u1. now apply contains_filter, contains_lstrip. }
  destruct (split_scheme u1) as [sch rest] eqn:Hs.
  destruct (split_scheme_spec _ _ _ Hs) as (_ & pre & Hrest).
  rewrite Hrest, contains_app in H1. apply orb_false_iff in H1.
  destruct H1 as [_ H1].
  destruct (after_double_slash rest) as [after |] eqn:Ha.
  - apply after_double_slash_spec in Ha. subst rest. discriminate.
  - destruct (split_fragment_query rest) as [[p1 q1] f1].
    destruct (mem sch uses_params && contains ";" p1);
      [destruct (_splitparams p1) |]; eexists; split; reflexivity.
Qed.

(** X4.  A base URL that holds no slash at all, such as [example.com],
    [localhost:8080] or [mailto:a@b.org], is never taken as invalid: it
    parses without a network location, and [generate_links] ends in the
    AttributeError for [None.split], with nothing logged. *)
Theorem X4_base_url_without_slash chk base_url num_links pat w :
  contains "/" base_url = false ->
  generate_links chk base_url num_links pat w
  = (Raises (AttributeError "'NoneType' object has no attribute 'split'"), w).
Proof.
  intros Hu. destruct (urlparse_without_slash chk _ Hu) as (p & Hp & Hn).
  apply (generate_links_no_hostname _ _ _ _ _ _ Hp).
  unfold hostname. now rewrite Hn.
Qed.

Lemma X4_base_url_without_slash_witness :
  generate_links loopback_only "localhost:8080" 3 "/page{}" sample_world
  = (Raises (AttributeError "'NoneType' object has no attribute 'split'"),
     sample_world).
Proof.
  apply (X4_base_url_without_slash loopback_only "localhost:8080" 3 "/page{}"
           sample_world).
  reflexivity.
Defined.

(** ** Patterns that format, whatever their shape *)

(** For a pattern that [str.format] accepts at every index, with result
    [f i] at index [i]: the link at position [k] carries the path
    [f (k + 1)]. *)
Lemma generate_links_formatted chk base_url count pat f p h w :
  urlparse chk base_url = Returns p ->
  hostname p = Some h ->
  (0 <= count)%Z ->
  (forall i, Format.format pat i = Returns (f i)) ->
  exists links w',
    generate_links chk base_url count pat w = (Returns links, w')
    /\ List.length links = Z.to_nat count
    /\ forall k, k < Z.to_nat count ->
         exists tld,
           is_tld_value tld = true
           /\ nth_error links k
              = Some (link_for p (split_head "." h) tld
                        (f (Z.of_nat k + 1)%Z)).
Proof.
  intros Hp Hh Hn Hf.
  destruct (links_loop_returns p (split_head "." h) pat
              (py_range 1 (count + 1)) [] w) as (links & w' & Hl).
  { intros i _. eexists. apply Hf. }
  exists links, (generated_log w' (List.length links) base_url).
  rewrite (generate_links_unfold _ _ _ _ _ _ _ Hp Hh), Hl.
  apply links_loop_inv in Hl. destruct Hl as (news & -> & HF & _).
  simpl. repeat split.
  - rewrite <- (Forall2_length HF), py_range_length. f_equal. lia.
  - intros k Hk.
    assert (Hk' : k < Z.to_nat (count + 1 - 1)) by lia.
    pose proof (py_range_nth 1 (count + 1) k Hk') as Hidx.
    destruct (Forall2_nth_error _ _ _ HF _ _ Hidx)
      as (link & Hlink & pth & tld & Hfmt & Hv & ->).
    rewrite Hf in Hfmt.
    replace (1 + Z.of_nat k)%Z with (Z.of_nat k + 1)%Z in Hfmt by lia.
    assert (Hpth : pth = f (Z.of_nat k + 1)%Z) by congruence.
    subst pth. now exists tld.
Qed.





(** ** [randomize_and_generate_links] and [main] *)

Lemma shuffle_returns {A} (x : list A) w :
  exists x' w',
    Random.shuffle x w = (Returns x', w')
    /\ Permutation x x' /\ log w' = log w.
Proof.
  unfold Random.shuffle.
  pose proof (shuffle_from_permutation (List.length x - 1) x (gen w)) as HP.
  destruct (Random.shuffle_from (List.length x - 1) x (gen w)) as [x' g].
  exists x', {| gen := g; log := log w |}. repeat split.
  now apply Permutation_sym.
Qed.

Lemma generate_links_log chk base_url num_links pat w links w' :
  generate_links chk base_url num_links pat w = (Returns links, w') ->
  log w' = (log w ++ [(INFO, ("Generated "
                              ++ str_of_int (Z.of_nat (List.length links))
                              ++ " links based on " ++ base_url)%string)])%list.
Proof.
  intros H. destruct (generate_links_inv _ _ _ _ _ _ _ H) as (p & h & Hp & Hh & _).
  rewrite (generate_links_unfold _ _ _ _ _ _ _ Hp Hh) in H.
  destruct (links_loop _ _ _ _ _ w) as [[l | e | ] w1] eqn:Hl;
    try discriminate.
  inversion H; subst. apply links_loop_inv in Hl.
  destruct Hl as (news & _ & _ & Hlog). simpl. now rewrite Hlog.
Qed.

(** X6.  What [randomize_and_generate_links] returns is, in some order,
    what [generate_links] returns from the same random state, no link
    lost or added, and the log ends with the "Generated ..." record
    followed by "Randomized the order of generated links." *)
Theorem X6_randomized_links_are_the_generated_links
    chk base_url num_links pat w links w' :
  randomize_and_generate_links chk base_url num_links pat w
  = (Returns links, w') ->
  exists generated w1,
    generate_links chk base_url num_links pat w = (Returns generated, w1)
    /\ Permutation generated links
    /\ List.length links = List.length generated
    /\ log w'
       = (log w
          ++ [(INFO, ("Generated "
                      ++ str_of_int (Z.of_nat (List.length generated))
                      ++ " links based on " ++ base_url)%string);
              (INFO, "Randomized the order of generated links.")])%list.
Proof.
  intros H. unfold randomize_and_generate_links in H.
  apply bind_not_returns in H. destruct H as (generated & w1 & Hg & H).
  apply bind_not_returns in H. destruct H as (l' & w2 & Hs & H).
  destruct (shuffle_returns generated w1) as (x' & w2' & Hs' & HP & Hlog).
  rewrite Hs in Hs'. inversion Hs'; subst x' w2'; clear Hs'.
  unfold bind, logging_info, logging_log, ret in H. simpl in H.
  inversion H; subst; clear H.
  exists generated, w1. repeat split; auto.
  - symmetry. now apply Permutation_length.
  - simpl. rewrite Hlog.
    rewrite (generate_links_log _ _ _ _ _ _ _ Hg).
    now rewrite <- app_assoc.
Qed.

Lemma X6_randomized_links_are_the_generated_links_witness :
  exists generated w1,
    generate_links loopback_only "https://example.com" 3 "/page{}"
      sample_world = (Returns generated, w1)
    /\ Permutation generated
         ["https://example.ta/page2"; "https://example.vc/page3";
          "https://example.ry/page1"]
    /\ List.length ["https://example.ta/page2"; "https://example.vc/page3";
                    "https://example.ry/page1"] = List.length generated
    /\ log (snd (randomize_and_generate_links loopback_only
                   "https://example.com" 3 "/page{}" sample_world))
       = (log sample_world
          ++ [(INFO, ("Generated "
                      ++ str_of_int (Z.of_nat (List.length generated))
                      ++ " links based on " ++ "https://example.com")%string);
              (INFO, "Randomized the order of generated links.")])%list.
Proof.
  apply (X6_randomized_links_are_the_generated_links loopback_only
           "https://example.com" 3 "/page{}" sample_world).
  vm_compute. reflexivity.
Defined.

Lemma randomize_returns chk base_url num_links pat w generated w1 :
  generate_links chk base_url num_links pat w = (Returns generated, w1) ->
  exists links w',
    randomize_and_generate_links chk base_url num_links pat w
    = (Returns links, w')
    /\ Permutation generated links.
Proof.
  intros Hg.
  destruct (shuffle_returns generated w1) as (x' & w2 & Hs & HP & _).
  exists x'. eexists. split; [| exact HP].
  unfold randomize_and_generate_links.
  rewrite (bind_returns _ _ _ _ _ Hg), (bind_returns _ _ _ _ _ Hs).
  reflexivity.
Qed.

(** X7.  Run with only a base URL that has a hostname, [main] uses 10
    links and the pattern [/page{}]: it prints the header line and then
    exactly ten links, and for each index from 1 to 10 one of them is the
    link with path [/page<index>]. *)
Theorem X7_main_defaults_print_ten_pages chk base_url p h w :
  urlparse chk base_url = Returns p ->
  hostname p = Some h ->
  exists links w',
    main chk base_url None None w
    = (Returns ("Randomized and Generated Links:" :: links), w')
    /\ List.length links = 10
    /\ forall i, (1 <= i <= 10)%Z ->
         exists tld,
           is_tld_value tld = true
           /\ In (link_for p (split_head "." h) tld
                    ("/page" ++ str_of_int i)) links.
Proof.
  intros Hp Hh.
  destruct (generate_links_formatted chk base_url 10 "/page{}"
              (fun i => "/page" ++ str_of_int i ++ "") p h w Hp Hh)
    as (generated & w1 & Hg & Hlen & Hnth); [lia | |].
  { intros i. now apply (format_single "/page" ""). }
  destruct (randomize_returns _ _ _ _ _ _ _ Hg) as (links & w' & Hr & HP).
  exists links, w'. repeat split.
  - unfold main, default_num_links, default_path_pattern.
    now rewrite (bind_returns _ _ _ _ _ Hr).
  - rewrite <- (Permutation_length HP), Hlen. reflexivity.
  - intros i Hi.
    destruct (Hnth (Z.to_nat (i - 1))) as (tld & Hv & Hk); [lia |].
    replace (Z.of_nat (Z.to_nat (i - 1)) + 1)%Z with i in Hk by lia.
    rewrite append_nil_r in Hk.
    exists tld. split; [assumption |].
    apply (Permutation_in _ HP). eapply nth_error_In. exact Hk.
Qed.

Lemma X7_main_defaults_print_ten_pages_witness :
  exists links w',
    main loopback_only "https://example.com" None None sample_world
    = (Returns ("Randomized and Generated Links:" :: links), w')
    /\ List.length links = 10
    /\ forall i, (1 <= i <= 10)%Z ->
         exists tld,
           is_tld_value tld = true
           /\ In (link_for
                    {| scheme := "https"; netloc := "example.com";
                       path := ""; params := ""; query := "";
                       fragment := "" |}
                    "example" tld ("/page" ++ str_of_int i)) links.
Proof.
  apply (X7_main_defaults_print_ten_pages loopback_only "https://example.com"
           {| scheme := "https"; netloc := "example.com"; path := "";
              params := ""; query := ""; fragment := "" |}
           "example.com" sample_world);
    reflexivity.
Defined.

(** ** The TLD selector with candidates of the caller *)

Lemma random_letters_returns w :
  exists tld w',
    (k <- Random.choice [2; 3] ;;
     letters <- Random.choices ascii_lowercase k ;;
     ret (concat_all letters)) w = (Returns tld, w')
    /\ (String.length tld = 2 \/ String.length tld = 3)
    /\ all_chars is_ascii_lower tld = true
    /\ log w' = log w.
Proof.
  destruct (choice_returns 2 [3] w) as (k & w2 & E2 & Hin & L2).
  destruct (choices_returns k w2) as (l & w3 & E3 & Hlen & Hall & L3).
  exists (concat_all l), w3.
  rewrite (bind_returns _ _ _ _ _ E2), (bind_returns _ _ _ _ _ E3).
  repeat split; try congruence.
  rewrite Hlen. destruct Hin as [<- | [<- | []]]; auto.
Qed.

(** X8.  Given a non-empty candidate list of its caller, the TLD selector
    always returns: an element of that list, or a string of two or three
    lowercase ASCII letters; it leaves no log record. *)
Theorem X8_selector_with_own_candidates :
  forall (d : string) (l : list string) (w : world),
  exists tld w',
    generate_random_tld (Some (d :: l)) w = (Returns tld, w')
    /\ (In tld (d :: l)
        \/ ((String.length tld = 2 \/ String.length tld = 3)
            /\ all_chars is_ascii_lower tld = true))
    /\ log w' = log w.
Proof.
  intros d l w. unfold generate_random_tld.
  destruct (choice_returns true [false] w) as (coin & w1 & E1 & _ & L1).
  rewrite (bind_returns _ _ _ _ _ E1).
  destruct coin.
  - destruct (choice_returns d l w1) as (t & w2 & E2 & Hin & L2).
    rewrite (bind_returns _ _ _ _ _ E2).
    exists t, w2. unfold bind, logging_debug, logging_log, ret. simpl.
    repeat split; [now left | congruence].
  - destruct (random_letters_returns w1) as (t & w2 & E2 & Hlen & Hall & L2).
    rewrite (bind_returns _ _ _ _ _ E2).
    exists t, w2. unfold bind, logging_debug, logging_log, ret. simpl.
    repeat split; [now right | congruence].
Qed.

(** X9.  With an empty candidate list the coin decides: when it lands on
    the candidates, the selector fails with IndexError "Cannot choose from
    an empty sequence"; otherwise it returns two or three lowercase
    letters as usual. *)
Theorem X9_selector_with_no_candidates :
  (forall w,
     fst (Random.choice [true; false] w) = Returns true ->
     fst (generate_random_tld (Some []) w)
     = Raises (IndexError "Cannot choose from an empty sequence"))
  /\ (forall w,
        fst (Random.choice [true; false] w) = Returns false ->
        exists tld,
          fst (generate_random_tld (Some []) w) = Returns tld
          /\ (String.length tld = 2 \/ String.length tld = 3)
          /\ all_chars is_ascii_lower tld = true).
Proof.
  split; intros w Hcoin; unfold generate_random_tld;
    destruct (choice_returns true [false] w) as (coin & w1 & E1 & _ & L1);
    rewrite E1 in Hcoin; simpl in Hcoin; injection Hcoin as ->;
    rewrite (bind_returns _ _ _ _ _ E1).
  - reflexivity.
  - destruct (random_letters_returns w1) as (t & w2 & E2 & Hlen & Hall & L2).
    rewrite (bind_returns _ _ _ _ _ E2).
    exists t. unfold bind, logging_debug, logging_log, ret. simpl. auto.
Qed.

Lemma X9_selector_with_no_candidates_witness :
  fst (generate_random_tld (Some [])
         {| gen := {| tape := fun n => 7 * n + 3; pos := 1 |}; log := [] |})
  = Raises (IndexError "Cannot choose from an empty sequence")
  /\ exists tld,
       fst (generate_random_tld (Some []) sample_world) = Returns tld
       /\ (String.length tld = 2 \/ String.length tld = 3)
       /\ all_chars is_ascii_lower tld = true.
Proof.
  destruct X9_selector_with_no_candidates as [H1 H2]. split.
  - apply H1. reflexivity.
  - apply H2. reflexivity.
Defined.

(** ** What a link takes from the base URL *)

Lemma lower_char_at c : Ascii.eqb (lower_char c) "@" = Ascii.eqb c "@".
Proof. each_char c. Qed.

Lemma lower_host_no_at : forall s,
  contains "@" s = false -> contains "@" (lower_host s) = false.
Proof.
  induction s as [| x s IH]; [reflexivity |]. intros H.
  rewrite lower_host_cons. destruct (Ascii.eqb x "%"); [assumption |].
  simpl in *. apply orb_false_iff in H. destruct H as [Hx Hs].
  now rewrite lower_char_at, Hx, IH.
Qed.

Lemma partition_head_prefix c s h f t :
  partition c s = (h, f, t) -> exists rest, s = h ++ rest.
Proof.
  intros E. destruct (partition_spec _ _ _ _ _ E) as [_ H].
  destruct f; [now exists (String c t) |].
  destruct H as [-> _]. exists "". now rewrite append_nil_r.
Qed.

(** The host text of a netloc is a piece of the netloc that lies after
    its last [@]. *)
Lemma hostinfo_host_piece nl :
  contains "@" (fst (_hostinfo nl)) = false
  /\ forall c, contains c nl = false ->
               contains c (fst (_hostinfo nl)) = false.
Proof.
  unfold _hostinfo.
  destruct (rpartition "@" nl) as [[u fa] hi] eqn:E1.
  destruct (rpartition_spec _ _ _ _ _ E1) as (Hat & pre1 & ->).
  destruct (partition "[" hi) as [[bb fo] br] eqn:E2.
  destruct (partition_tail_suffix _ _ _ _ _ E2) as (pre2 & Hhi).
  destruct fo.
  - destruct (partition "]" br) as [[hn fc] p1] eqn:E3.
    destruct (partition_head_prefix _ _ _ _ _ E3) as (rest & ->).
    destruct (partition ":" p1) as [[x1 f1] p2]. simpl.
    subst hi. split.
    + rewrite !contains_app in Hat. apply orb_false_iff in Hat.
      destruct Hat as [_ Hat]. apply orb_false_iff in Hat. now destruct Hat.
    + intros c Hc. rewrite !contains_app in Hc.
      apply orb_false_iff in Hc. destruct Hc as [_ Hc].
      apply orb_false_iff in Hc. destruct Hc as [_ Hc].
      apply orb_false_iff in Hc. now destruct Hc.
  - destruct (partition ":" hi) as [[hn fc] p1] eqn:E3.
    destruct (partition_head_prefix _ _ _ _ _ E3) as (rest & Hhn). simpl.
    rewrite Hhn in *. split.
    + rewrite contains_app in Hat. apply orb_false_iff in Hat.
      now destruct Hat.
    + intros c Hc. rewrite !contains_app in Hc.
      apply orb_false_iff in Hc. destruct Hc as [_ Hc].
      apply orb_false_iff in Hc. now destruct Hc.
Qed.

Lemma hostname_no_at nl h :
  hostname_of_netloc nl = Some h -> contains "@" h = false.
Proof.
  unfold hostname_of_netloc.
  destruct (hostinfo_host_piece nl) as [Hat _].
  destruct (is_empty (fst (_hostinfo nl))); [discriminate |].
  intros [= <-]. now apply lower_host_no_at.
Qed.

Lemma split_head_keeps_absent c x s :
  contains x s = false -> contains x (split_head c s) = false.
Proof.
  intros H. destruct (split_head_prefix c s) as (rest & E).
  rewrite E, contains_app in H. apply orb_false_iff in H. now destruct H.
Qed.

(** X10.  User name and password of the base URL never reach a link: the
    netloc every link is assembled with holds no [@]. *)
Theorem X10_links_carry_no_userinfo chk base_url num_links pat w links w' :
  generate_links chk base_url num_links pat w = (Returns links, w') ->
  forall link, In link links ->
    exists r,
      link = urlunparse r
      /\ contains "@" (netloc r) = false
      /\ link = scheme_prefix (scheme r) ++ "//" ++ netloc r
                ++ path_text (path r) (params r)
                ++ query_suffix (query r) ++ fragment_suffix (fragment r).
Proof.
  intros H link Hin.
  destruct (generate_links_inv _ _ _ _ _ _ _ H) as (p & h & Hp & Hh & HF).
  destruct (Forall2_In_r _ _ _ HF link Hin)
    as (i & _ & pth & tld & Hfmt & Hv & ->).
  exists (_replace p (split_head "." h ++ "." ++ tld) pth).
  repeat split.
  - cbn [netloc _replace].
    destruct (tld_value_lowercase _ Hv) as (Hlow & _).
    rewrite !contains_app.
    rewrite (split_head_keeps_absent "." "@" h (hostname_no_at _ _ Hh)).
    simpl. apply (all_chars_not_contains is_ascii_lower); auto.
  - cbn [scheme netloc path params query fragment _replace].
    apply link_for_text.
Qed.

Lemma X10_links_carry_no_userinfo_witness :
  (exists r,
     "https://example.ry/page1?q=1" = urlunparse r
     /\ contains "@" (netloc r) = false
     /\ "https://example.ry/page1?q=1"
        = scheme_prefix (scheme r) ++ "//" ++ netloc r
          ++ path_text (path r) (params r)
          ++ query_suffix (query r) ++ fragment_suffix (fragment r))
  /\ (exists r,
        "https://example.ta/page2?q=1" = urlunparse r
        /\ contains "@" (netloc r) = false
        /\ "https://example.ta/page2?q=1"
           = scheme_prefix (scheme r) ++ "//" ++ netloc r
             ++ path_text (path r) (params r)
             ++ query_suffix (query r) ++ fragment_suffix (fragment r)).
Proof.
  assert (Hall :
    generate_links loopback_only "HTTPS://User:Pw@Example.ORG:8080/b/c?q=1"
      2 "/page{}" sample_world
    = (Returns ["https://example.ry/page1?q=1";
                "https://example.ta/page2?q=1"],
       snd (generate_links loopback_only
              "HTTPS://User:Pw@Example.ORG:8080/b/c?q=1" 2 "/page{}"
              sample_world))) by (vm_compute; reflexivity).
  pose proof (X10_links_carry_no_userinfo _ _ _ _ _ _ _ Hall) as H.
  split; apply H; simpl; auto.
Defined.

Lemma links_loop_same_fields p1 p2 b pat : forall idx acc w,
  scheme p1 = scheme p2 -> params p1 = params p2 ->
  query p1 = query p2 -> fragment p1 = fragment p2 ->
  links_loop p1 b pat idx acc w = links_loop p2 b pat idx acc w.
Proof.
  intros idx acc w Hs Hpr Hq Hf. revert acc w.
  induction idx as [| i idx IH]; intros acc w; [reflexivity |].
  simpl. unfold bind at 1 3, lift.
  destruct (Format.format pat i) as [pth | e | ]; try reflexivity.
  unfold bind at 1 2.
  destruct (generate_random_tld None w) as [[tld | e | ] w1]; try reflexivity.
  unfold urlunparse, _replace. cbn [scheme netloc path params query fragment].
  rewrite Hs, Hpr, Hq, Hf. apply IH.
Qed.

(** X11.  Of the base URL only the scheme, the first label of the
    hostname, the params, the query and the fragment matter: two base
    URLs that agree on these give, from the same random state, the same
    outcome, whatever their ports, user names, paths and remaining
    hostname labels. *)
Theorem X11_links_depend_on_five_components
    chk url1 url2 p1 p2 h1 h2 num_links pat w :
  urlparse chk url1 = Returns p1 -> hostname p1 = Some h1 ->
  urlparse chk url2 = Returns p2 -> hostname p2 = Some h2 ->
  scheme p1 = scheme p2 ->
  split_head "." h1 = split_head "." h2 ->
  params p1 = params p2 -> query p1 = query p2 ->
  fragment p1 = fragment p2 ->
  fst (generate_links chk url1 num_links pat w)
  = fst (generate_links chk url2 num_links pat w).
Proof.
  intros Hp1 Hh1 Hp2 Hh2 Hs Hb Hpr Hq Hf.
  rewrite (generate_links_unfold _ _ _ _ _ _ _ Hp1 Hh1).
  rewrite (generate_links_unfold _ _ _ _ _ _ _ Hp2 Hh2).
  rewrite Hb, (links_loop_same_fields p1 p2 _ _ _ _ _ Hs Hpr Hq Hf).
  now destruct (links_loop p2 _ _ _ _ w) as [[l | e | ] w1].
Qed.

Lemma X11_links_depend_on_five_components_witness :
  fst (generate_links loopback_only "https://example.com/a?q=1" 2 "/page{}"
         sample_world)
  = fst (generate_links loopback_only
           "HTTPS://User:Pw@Example.ORG:8080/b/c?q=1" 2 "/page{}"
           sample_world).
Proof.
  apply (X11_links_depend_on_five_components loopback_only
           "https://example.com/a?q=1"
           "HTTPS://User:Pw@Example.ORG:8080/b/c?q=1"
           {| scheme := "https"; netloc := "example.com"; path := "/a";
              params := ""; query := "q=1"; fragment := "" |}
           {| scheme := "https"; netloc := "User:Pw@Example.ORG:8080";
              path := "/b/c"; params := ""; query := "q=1";
              fragment := "" |}
           "example.com" "example.org");
    reflexivity.
Defined.

(** X12.  Links can be fed back: for a base URL whose netloc has no
    bracket, using one of its links as the base URL of a second run gives
    links with the same scheme and the same base hostname, each with a
    TLD of its own. *)
Theorem X12_regenerating_from_a_link
    chk base_url num_links pat w links w' p h
    link num_links2 pat2 w2 links2 w2' :
  generate_links chk base_url num_links pat w = (Returns links, w') ->
  urlparse chk base_url = Returns p ->
  hostname p = Some h ->
  contains "[" (netloc p) = false ->
  In link links ->
  generate_links chk link num_links2 pat2 w2 = (Returns links2, w2') ->
  forall link2, In link2 links2 ->
    exists r2 tld2,
      link2 = urlunparse r2
      /\ scheme r2 = scheme p
      /\ netloc r2 = split_head "." h ++ "." ++ tld2
      /\ is_tld_value tld2 = true.
Proof.
  intros H Hp Hh Ho Hin H2 link2 Hin2.
  destruct (generate_links_inv _ _ _ _ _ _ _ H) as (p' & h' & Hp' & Hh' & HF).
  assert (p' = p) by congruence. subst p'.
  assert (h' = h) by congruence. subst h'.
  destruct (Forall2_In_r _ _ _ HF link Hin)
    as (i & _ & pth & tld & Hfmt & Hv & ->).
  destruct (link_for_reparse chk _ _ _ _ pth Hp Hh Ho Hv)
    as (r & Hr & Hs & _ & Hhr & _ & _ & Hhead).
  destruct (generate_links_inv _ _ _ _ _ _ _ H2)
    as (pl & hl & Hpl & Hhl & HF2).
  assert (pl = r) by congruence. subst pl.
  assert (hl = split_head "." h ++ "." ++ tld) by congruence. subst hl.
  rewrite Hhead in HF2.
  destruct (Forall2_In_r _ _ _ HF2 link2 Hin2)
    as (i2 & _ & pth2 & tld2 & Hfmt2 & Hv2 & ->).
  exists (_replace r (split_head "." h ++ "." ++ tld2) pth2), tld2.
  repeat split; auto.
Qed.

Lemma X12_regenerating_from_a_link_witness :
  (exists r2 tld2,
     "https://www.ry/p1" = urlunparse r2
     /\ scheme r2 = "https"
     /\ netloc r2 = "www" ++ "." ++ tld2
     /\ is_tld_value tld2 = true)
  /\ (exists r2 tld2,
        "https://www.ta/p2" = urlunparse r2
        /\ scheme r2 = "https"
        /\ netloc r2 = "www" ++ "." ++ tld2
        /\ is_tld_value tld2 = true).
Proof.
  assert (H1 :
    generate_links loopback_only "https://www.example.com:8080/x" 2
      "/page{}" sample_world
    = (Returns ["https://www.ry/page1"; "https://www.ta/page2"],
       snd (generate_links loopback_only "https://www.example.com:8080/x" 2
              "/page{}" sample_world))) by (vm_compute; reflexivity).
  assert (H2 :
    generate_links loopback_only "https://www.ry/page1" 2 "/p{}" sample_world
    = (Returns ["https://www.ry/p1"; "https://www.ta/p2"],
       snd (generate_links loopback_only "https://www.ry/page1" 2 "/p{}"
              sample_world))) by (vm_compute; reflexivity).
  pose proof (X12_regenerating_from_a_link _ _ _ _ _ _ _
                {| scheme := "https"; netloc := "www.example.com:8080";
                   path := "/x"; params := ""; query := "";
                   fragment := "" |}
                "www.example.com" "https://www.ry/page1" _ _ _ _ _
                H1 eq_refl eq_refl eq_refl (or_introl eq_refl) H2) as H.
  split; apply H; simpl; auto.
Defined.

(** ** Randomness only picks TLDs *)

Lemma links_loop_raises_any p b pat e : forall idx acc1 acc2 w1 w2,
  fst (links_loop p b pat idx acc1 w1) = Raises e ->
  fst (links_loop p b pat idx acc2 w2) = Raises e.
Proof.
  induction idx as [| i idx IH]; intros acc1 acc2 w1 w2; [discriminate |].
  simpl. unfold bind at 1 3, lift.
  destruct (Format.format pat i) as [pth | e0 | ]; auto.
  destruct (generate_random_tld_returns w1) as (t1 & v1 & E1 & _ & _).
  destruct (generate_random_tld_returns w2) as (t2 & v2 & E2 & _ & _).
  unfold bind at 1 2. rewrite E1, E2. apply IH.
Qed.

Lemma Forall2_In_l {A B} (R : A -> B -> Prop) l l' :
  Forall2 R l l' ->
  forall a, In a l -> exists b, In b l' /\ R a b.
Proof.
  induction 1 as [| x y l l' Hxy HF IH]; intros a Ha.
  - destruct Ha.
  - destruct Ha as [<- | Ha].
    + exists y. split; [now left | assumption].
    + destruct (IH a Ha) as (b & Hb & HR). exists b.
      split; [now right | assumption].
Qed.

(** X13.  The random state decides TLDs and nothing else: if
    [generate_links] raises an exception from one random state it raises
    the same exception from every other, and if it returns links it
    returns as many from every other. *)
Theorem X13_outcome_does_not_depend_on_randomness
    chk base_url num_links pat w1 w2 :
  (forall e,
     fst (generate_links chk base_url num_links pat w1) = Raises e ->
     fst (generate_links chk base_url num_links pat w2) = Raises e)
  /\ (forall links1,
        fst (generate_links chk base_url num_links pat w1) = Returns links1 ->
        exists links2,
          fst (generate_links chk base_url num_links pat w2) = Returns links2
          /\ List.length links2 = List.length links1).
Proof.
  split.
  - intros e H.
    destruct (urlparse chk base_url) as [p | e0 | ] eqn:Hp.
    + destruct (hostname p) as [h |] eqn:Hh.
      * rewrite (generate_links_unfold _ _ _ _ _ _ w1 Hp Hh) in H.
        rewrite (generate_links_unfold _ _ _ _ _ _ w2 Hp Hh).
        pose proof (links_loop_raises_any p (split_head "." h) pat e
                      (py_range 1 (num_links + 1)) [] [] w1 w2) as HL.
        destruct (links_loop _ _ _ _ _ w1) as [[l1 | e1 | ] v1];
          try discriminate.
        simpl in H. specialize (HL H).
        destruct (links_loop _ _ _ _ _ w2) as [[l2 | e2 | ] v2];
          try discriminate. exact HL.
      * rewrite (generate_links_no_hostname _ _ _ _ _ w1 Hp Hh) in H.
        now rewrite (generate_links_no_hostname _ _ _ _ _ w2 Hp Hh).
    + destruct (urlparse_raises_ValueError _ _ _ Hp) as (msg & ->).
      rewrite (generate_links_unparseable _ _ _ _ _ w1 Hp) in H.
      now rewrite (generate_links_unparseable _ _ _ _ _ w2 Hp).
    + unfold generate_links, bind, catch_ValueError, lift in H.
      rewrite Hp in H. discriminate.
  - intros links1 H.
    destruct (generate_links chk base_url num_links pat w1)
      as [o1 v1] eqn:E1. simpl in H. subst o1.
    destruct (generate_links_inv _ _ _ _ _ _ _ E1) as (p & h & Hp & Hh & HF).
    destruct (links_loop_returns p (split_head "." h) pat
                (py_range 1 (num_links + 1)) [] w2) as (links2 & v2 & Hl).
    { intros i Hi. destruct (Forall2_In_l _ _ _ HF i Hi)
        as (link & _ & pth & _ & Hfmt & _). now exists pth. }
    exists links2. rewrite (generate_links_unfold _ _ _ _ _ _ _ Hp Hh), Hl.
    split; [reflexivity |].
    apply links_loop_inv in Hl. destruct Hl as (news & -> & HF2 & _).
    simpl. now rewrite <- (Forall2_length HF2), (Forall2_length HF).
Qed.

Lemma X13_outcome_does_not_depend_on_randomness_witness :
  fst (generate_links loopback_only "https://example.com" 3 "/page}"
         {| gen := {| tape := fun n => n * n; pos := 5 |}; log := [] |})
  = Raises (ValueError "Single '}' encountered in format string")
  /\ exists links2,
       fst (generate_links loopback_only "https://example.com" 3 "/page{}"
              {| gen := {| tape := fun n => n * n; pos := 5 |}; log := [] |})
       = Returns links2
       /\ List.length links2 = 3.
Proof.
  split.
  - apply (proj1 (X13_outcome_does_not_depend_on_randomness loopback_only
                    "https://example.com" 3 "/page}" sample_world _)).
    reflexivity.
  - apply (proj2 (X13_outcome_does_not_depend_on_randomness loopback_only
                    "https://example.com" 3 "/page{}" sample_world _)
             ["https://example.ry/page1"; "https://example.ta/page2";
              "https://example.vc/page3"]).
    vm_compute. reflexivity.
Defined.

(** ** Case *)

Lemma lower_char_not_upper c : is_ascii_upper (lower_char c) = false.
Proof. each_char c. Qed.

Lemma ascii_lower_not_upper c :
  is_ascii_lower c = true -> negb (is_ascii_upper c) = true.
Proof. each_char c. Qed.

Lemma lower_scheme_not_upper c :
  lower_scheme_char c = true -> negb (is_ascii_upper c) = true.
Proof. each_char c. Qed.

Lemma lower_no_upper : forall s,
  all_chars (fun c => negb (is_ascii_upper c)) (lower s) = true.
Proof.
  induction s as [| x s IH]; [reflexivity |].
  unfold lower in *. simpl. now rewrite lower_char_not_upper, IH.
Qed.

Lemma lower_host_without_zone : forall s,
  contains "%" s = false -> lower_host s = lower s.
Proof.
  induction s as [| x s IH]; [reflexivity |]. intros H.
  simpl in H. apply orb_false_iff in H. destruct H as [Hx Hs].
  rewrite lower_host_cons, Hx, (IH Hs). reflexivity.
Qed.

(** X14.  Links come out in lower case.  For a base URL that parses to
    [p] with the hostname [h] and whose netloc has no [%]: the scheme of
    [p] and the first label of [h] hold no ASCII capital, whatever the
    case of the base URL, and every link is the text [urlunparse] gives
    for [p] with the netloc [first label of h, dot, TLD value] and some
    path: it starts with that scheme, [//] and that netloc, which hold no
    ASCII capital. *)
Theorem X14_scheme_and_host_are_lowercased
    chk base_url num_links pat w links w' p h :
  generate_links chk base_url num_links pat w = (Returns links, w') ->
  urlparse chk base_url = Returns p ->
  hostname p = Some h ->
  contains "%" (netloc p) = false ->
  all_chars (fun c => negb (is_ascii_upper c)) (scheme p) = true
  /\ all_chars (fun c => negb (is_ascii_upper c)) (split_head "." h) = true
  /\ forall link, In link links ->
       exists tld pth,
         is_tld_value tld = true
         /\ link = urlunparse
                     (_replace p (split_head "." h ++ "." ++ tld) pth)
         /\ link = scheme_prefix (scheme p) ++ "//"
                   ++ (split_head "." h ++ "." ++ tld)
                   ++ path_text pth (params p)
                   ++ query_suffix (query p) ++ fragment_suffix (fragment p)
         /\ all_chars (fun c => negb (is_ascii_upper c))
              (split_head "." h ++ "." ++ tld) = true.
Proof.
  intros H Hp0 Hh0 Hpct.
  destruct (generate_links_inv _ _ _ _ _ _ _ H) as (p' & h' & Hp & Hh & HF).
  assert (p' = p) by congruence. subst p'.
  assert (h' = h) by congruence. subst h'.
  assert (Hbase : all_chars (fun c => negb (is_ascii_upper c))
                    (split_head "." h) = true).
  { assert (Hh' : all_chars (fun c => negb (is_ascii_upper c)) h = true).
    { unfold hostname, hostname_of_netloc in Hh.
      destruct (hostinfo_host_piece (netloc p)) as [_ Hpiece].
      destruct (is_empty (fst (_hostinfo (netloc p)))); [discriminate |].
      injection Hh as <-.
      rewrite (lower_host_without_zone _ (Hpiece _ Hpct)).
      apply lower_no_upper. }
    destruct (split_head_prefix "." h) as (rest & E).
    rewrite E in Hh'. now apply all_chars_prefix in Hh'. }
  split; [| split; [exact Hbase |]].
  - destruct (urlparse_components _ _ _ Hp) as (Hsch & _).
    unfold is_scheme in Hsch. apply andb_true_iff in Hsch.
    destruct Hsch as [Hsch _]. revert Hsch.
    apply all_chars_impl, lower_scheme_not_upper.
  - intros link Hin.
    destruct (Forall2_In_r _ _ _ HF link Hin)
      as (i & _ & pth & tld & Hfmt & Hv & ->).
    exists tld, pth.
    split; [exact Hv | split; [reflexivity | split; [apply link_for_text |]]].
    destruct (tld_value_lowercase _ Hv) as (Hlow & _).
    rewrite all_chars_app, Hbase. simpl.
    revert Hlow. apply all_chars_impl, ascii_lower_not_upper.
Qed.

Lemma X14_scheme_and_host_are_lowercased_witness :
  all_chars (fun c => negb (is_ascii_upper c)) "https" = true
  /\ all_chars (fun c => negb (is_ascii_upper c))
       (split_head "." "example.org") = true
  /\ (exists tld pth,
        is_tld_value tld = true
        /\ "https://example.ry/page1?q=1"
           = urlunparse
               (_replace
                  {| scheme := "https"; netloc := "User:Pw@Example.ORG:8080";
                     path := "/b/c"; params := ""; query := "q=1";
                     fragment := "" |}
                  (split_head "." "example.org" ++ "." ++ tld) pth)
        /\ "https://example.ry/page1?q=1"
           = scheme_prefix "https" ++ "//"
             ++ (split_head "." "example.org" ++ "." ++ tld)
             ++ path_text pth "" ++ query_suffix "q=1" ++ fragment_suffix ""
        /\ all_chars (fun c => negb (is_ascii_upper c))
             (split_head "." "example.org" ++ "." ++ tld) = true)
  /\ (exists tld pth,
        is_tld_value tld = true
        /\ "https://example.ta/page2?q=1"
           = urlunparse
               (_replace
                  {| scheme := "https"; netloc := "User:Pw@Example.ORG:8080";
                     path := "/b/c"; params := ""; query := "q=1";
                     fragment := "" |}
                  (split_head "." "example.org" ++ "." ++ tld) pth)
        /\ "https://example.ta/page2?q=1"
           = scheme_prefix "https" ++ "//"
             ++ (split_head "." "example.org" ++ "." ++ tld)
             ++ path_text pth "" ++ query_suffix "q=1" ++ fragment_suffix ""
        /\ all_chars (fun c => negb (is_ascii_upper c))
             (split_head "." "example.org" ++ "." ++ tld) = true).
Proof.
  assert (Hall :
    generate_links loopback_only "HTTPS://User:Pw@Example.ORG:8080/b/c?q=1"
      2 "/page{}" sample_world
    = (Returns ["https://example.ry/page1?q=1";
                "https://example.ta/page2?q=1"],
       snd (generate_links loopback_only
              "HTTPS://User:Pw@Example.ORG:8080/b/c?q=1" 2 "/page{}"
              sample_world))) by (vm_compute; reflexivity).
  pose proof (X14_scheme_and_host_are_lowercased _ _ _ _ _ _ _
                {| scheme := "https"; netloc := "User:Pw@Example.ORG:8080";
                   path := "/b/c"; params := ""; query := "q=1";
                   fragment := "" |}
                "example.org" Hall eq_refl eq_refl eq_refl)
    as (H1 & H2 & H3).
  split; [exact H1 | split; [exact H2 |]].
  split; apply H3; simpl; auto.
Defined.

(** ** The links of one run are pairwise different *)

Lemma length_append (a b : string) :
  String.length (a ++ b) = String.length a + String.length b.
Proof. induction a as [| x a IH]; simpl; [reflexivity | now rewrite IH]. Qed.

Lemma append_inv_head (p a b : string) : p ++ a = p ++ b -> a = b.
Proof.
  induction p as [| x p IH]; simpl; [trivial |].
  intros H. injection H as H. now apply IH.
Qed.

Lemma append_inv_tail (t : string) : forall a b, a ++ t = b ++ t -> a = b.
Proof.
  induction a as [| x a IH]; intros [| y b] H; simpl in H.
  - reflexivity.
  - apply (f_equal String.length) in H. simpl in H.
    rewrite length_append in H. lia.
  - apply (f_equal String.length) in H. simpl in H.
    rewrite length_append in H. lia.
  - injection H as -> H. f_equal. now apply IH.
Qed.

Lemma to_int_not_nil i :
  Z.to_int i <> Decimal.Pos Decimal.Nil /\ Z.to_int i <> Decimal.Neg Decimal.Nil.
Proof.
  split; intros H; pose proof (DecimalZ.of_to i) as E; rewrite H in E;
    simpl in E; subst i; discriminate.
Qed.

Lemma str_of_int_inj i j : str_of_int i = str_of_int j -> i = j.
Proof.
  unfold str_of_int. intros H.
  apply DecimalZ.to_int_inj.
  destruct (to_int_not_nil i) as [Hi1 Hi2].
  destruct (to_int_not_nil j) as [Hj1 Hj2].
  pose proof (NilZero.isi _ Hi1 Hi2) as Ei.
  pose proof (NilZero.isi _ Hj1 Hj2) as Ej.
  rewrite H in Ei. congruence.
Qed.

Lemma str_of_int_head i :
  (0 <= i)%Z ->
  exists d s, str_of_int i = String d s /\ is_ascii_digit d = true.
Proof.
  intros Hi. pose proof (str_of_int_digits i Hi) as Hd.
  destruct (str_of_int i) as [| d s] eqn:E.
  - exfalso. unfold str_of_int in E.
    destruct (to_int_not_nil i) as [H1 H2].
    pose proof (NilZero.isi _ H1 H2) as Ei. rewrite E in Ei. discriminate.
  - exists d, s. simpl in Hd. apply andb_true_iff in Hd. now destruct Hd.
Qed.

Lemma digit_not_slash d :
  is_ascii_digit d = true -> Ascii.eqb d "/" = false.
Proof. each_char d. Qed.

Lemma ascii_lower_not_delim c :
  is_ascii_lower c = true -> negb (is_netloc_delim c) = true.
Proof. each_char c. Qed.

Lemma path_text_cons c x prm :
  path_text (String c x) prm =
  if Ascii.eqb c "/"
  then String c x ++ (if is_empty prm then "" else ";" ++ prm)
  else "/" ++ String c x ++ (if is_empty prm then "" else ";" ++ prm).
Proof.
  unfold path_text. destruct (is_empty prm).
  - cbn [is_empty negb andb starts_with]. rewrite append_nil_r.
    now destruct (Ascii.eqb c "/").
  - change (String c x ++ ";" ++ prm) with (String c (x ++ ";" ++ prm)).
    cbn [is_empty negb andb starts_with].
    now destruct (Ascii.eqb c "/").
Qed.

(** The path text determines the path, for two paths that open alike. *)
Lemma path_text_inj a b prm :
  (exists c a' b', a = String c a' /\ b = String c b')
  \/ (exists d1 d2 a' b',
        a = String d1 a' /\ b = String d2 b'
        /\ Ascii.eqb d1 "/" = false /\ Ascii.eqb d2 "/" = false) ->
  path_text a prm = path_text b prm -> a = b.
Proof.
  assert (Hcases :
    forall c1 c2 x' y',
      Ascii.eqb c1 "/" = Ascii.eqb c2 "/" ->
      path_text (String c1 x') prm = path_text (String c2 y') prm ->
      String c1 x' = String c2 y').
  { intros c1 c2 x' y' Hc. rewrite !path_text_cons, Hc.
    destruct (Ascii.eqb c2 "/"); intros H.
    - now apply append_inv_tail in H.
    - apply append_inv_head in H. now apply append_inv_tail in H. }
  intros [(c & a' & b' & -> & ->)
         | (d1 & d2 & a' & b' & -> & -> & H1 & H2)].
  - now apply Hcases.
  - apply Hcases. congruence.
Qed.

(** Two links of one base URL that are equal as text were built with the
    same index. *)
Lemma link_for_same_index p b t1 t2 pre post i j :
  is_tld_value t1 = true -> is_tld_value t2 = true ->
  (0 <= i)%Z -> (0 <= j)%Z ->
  link_for p b t1 (pre ++ str_of_int i ++ post)
  = link_for p b t2 (pre ++ str_of_int j ++ post) ->
  i = j.
Proof.
  intros Ht1 Ht2 Hi Hj H.
  destruct (tld_value_lowercase _ Ht1) as (Hl1 & _).
  destruct (tld_value_lowercase _ Ht2) as (Hl2 & _).
  rewrite !link_for_text in H.
  set (T1 := path_text (pre ++ str_of_int i ++ post) (params p)
             ++ query_suffix (query p) ++ fragment_suffix (fragment p)) in *.
  set (T2 := path_text (pre ++ str_of_int j ++ post) (params p)
             ++ query_suffix (query p) ++ fragment_suffix (fragment p)) in *.
  apply append_inv_head in H.
  change ("//" ++ (b ++ "." ++ t1) ++ T1)
    with ("//" ++ ((b ++ "." ++ t1) ++ T1)) in H.
  change ("//" ++ (b ++ "." ++ t2) ++ T2)
    with ("//" ++ ((b ++ "." ++ t2) ++ T2)) in H.
  apply append_inv_head in H.
  rewrite !append_assoc in H. apply append_inv_head in H.
  change ("." ++ t1 ++ T1) with ("." ++ (t1 ++ T1)) in H.
  change ("." ++ t2 ++ T2) with ("." ++ (t2 ++ T2)) in H.
  apply append_inv_head in H.
  assert (Hspan : forall t T,
            all_chars is_ascii_lower t = true -> is_tail T = true ->
            span_until is_netloc_delim (t ++ T) = (t, T)).
  { intros t T Hl HT. apply span_until_at.
    - revert Hl. apply all_chars_impl, ascii_lower_not_delim.
    - now apply is_tail_cases. }
  pose proof (Hspan t1 T1 Hl1 (link_tail_is_tail _ _ _ _)) as S1.
  pose proof (Hspan t2 T2 Hl2 (link_tail_is_tail _ _ _ _)) as S2.
  rewrite H in S1. rewrite S1 in S2. injection S2 as _ HT.
  unfold T1, T2 in HT. apply append_inv_tail in HT.
  apply path_text_inj in HT.
  - apply append_inv_head, append_inv_tail in HT. now apply str_of_int_inj.
  - destruct pre as [| c pre'].
    + right.
      destruct (str_of_int_head i Hi) as (d1 & s1 & E1 & D1).
      destruct (str_of_int_head j Hj) as (d2 & s2 & E2 & D2).
      exists d1, d2, (s1 ++ post), (s2 ++ post). simpl. rewrite E1, E2.
      repeat split; auto using digit_not_slash.
    + left. now exists c, (pre' ++ str_of_int i ++ post),
                         (pre' ++ str_of_int j ++ post).
Qed.

(** X15.  No link comes out twice: for a base URL with a hostname, a
    count of at least zero and a pattern [pre{}post] with brace-free
    [pre] and [post], the links returned by [generate_links] are pairwise
    different, even where two of them drew the same TLD. *)
Theorem X15_links_are_pairwise_different
    chk base_url count pre post p h w :
  urlparse chk base_url = Returns p ->
  hostname p = Some h ->
  (0 <= count)%Z ->
  brace_free pre = true -> brace_free post = true ->
  exists links w',
    generate_links chk base_url count (pre ++ "{}" ++ post) w
    = (Returns links, w')
    /\ NoDup links.
Proof.
  intros Hp Hh Hn Hpre Hpost.
  destruct (generate_links_formatted chk base_url count (pre ++ "{}" ++ post)
              (fun i => pre ++ str_of_int i ++ post) p h w Hp Hh Hn)
    as (links & w' & Hg & Hlen & Hnth).
  { intros i. now apply format_single. }
  exists links, w'. split; [assumption |].
  apply NoDup_nth_error. intros a b Ha Hab.
  rewrite Hlen in Ha.
  destruct (Hnth a Ha) as (t1 & Hv1 & E1).
  assert (Hb : b < Z.to_nat count).
  { rewrite <- Hlen. apply nth_error_Some. rewrite <- Hab, E1. discriminate. }
  destruct (Hnth b Hb) as (t2 & Hv2 & E2).
  rewrite E1, E2 in Hab. injection Hab as Hab.
  apply link_for_same_index in Hab; auto; lia.
Qed.

Lemma X15_links_are_pairwise_different_witness :
  exists links w',
    generate_links loopback_only "https://example.com/x;p?q=1#f" 4 "page{}"
      sample_world = (Returns links, w')
    /\ NoDup links.
Proof.
  apply (X15_links_are_pairwise_different loopback_only
           "https://example.com/x;p?q=1#f" 4 "page" ""
           {| scheme := "https"; netloc := "example.com"; path := "/x";
              params := "p"; query := "q=1"; fragment := "f" |}
           "example.com" sample_world);
    [reflexivity | reflexivity | lia | reflexivity | reflexivity].
Defined.
